(** * Notes backend: the in-memory note store

    A shallow embedding of [InMemoryNoteStore] from
    [notes_backend/src/api/main.py] together with the properties of its
    create / get / list / update / delete / seed / reset operations.

    Conventions of the embedding.
    - Python [int] is [Z]; Python [str] is [string]; [Optional[T]] is
      [option T]; [datetime] values are instants on a line, [Z].
    - [dict] keeps insertion order and [list_notes] iterates over it, so
      the note map is an association list in insertion order.
    - Every method runs under [self._lock], so a call is one atomic state
      transformer [store -> result * store].
    - [self._utcnow()] reads the wall clock; the reading is an explicit
      argument of each operation that performs one.
    - [str.lower] is a builtin that is not part of the repository: the
      search code is parametrised by it. *)

From Stdlib Require Import ZArith List Lia Sorted.
From stdpp Require Import base list strings pretty.
Import ListNotations.

Local Open Scope string_scope.
Local Open Scope list_scope.
Local Open Scope Z_scope.

(** ** Python builtins used by the store *)

Module PyStr.

(** [s.startswith(p)] *)
Fixpoint startswith (p s : string) : bool :=
  match p, s with
  | EmptyString, _ => true
  | String a p', String b s' => if decide (a = b) then startswith p' s' else false
  | String _ _, EmptyString => false
  end.

(** [p in s] for two strings: [p] occurs in [s] as a contiguous block. *)
Fixpoint contains (p s : string) : bool :=
  startswith p s ||
  match s with
  | EmptyString => false
  | String _ s' => contains p s'
  end.

(** Truth value of a [str]: only the empty string is falsy. *)
Definition truthy (s : string) : bool :=
  match s with EmptyString => false | String _ _ => true end.

(** ASCII case folding: what [str.lower] does on ASCII text. *)
Definition ascii_lower_char (c : Ascii.ascii) : Ascii.ascii :=
  let n := Ascii.N_of_ascii c in
  if ((65 <=? n) && (n <=? 90))%N then Ascii.ascii_of_N (n + 32) else c.

Fixpoint ascii_lower (s : string) : string :=
  match s with
  | EmptyString => EmptyString
  | String c s' => String (ascii_lower_char c) (ascii_lower s')
  end.

End PyStr.

Module PyList.
Section WithA.
Context {A : Type}.

(** [l[start:stop]] with Python's clamping: a negative index counts
    from the end, and both ends are clipped to [0 .. len l]. *)
Definition clamp (len i : Z) : Z :=
  if i <? 0 then Z.max (i + len) 0 else Z.min i len.

Definition slice (l : list A) (start stop : Z) : list A :=
  let len := Z.of_nat (length l) in
  let lo := clamp len start in
  let hi := clamp len stop in
  take (Z.to_nat (hi - lo)) (drop (Z.to_nat lo) l).
End WithA.

(** [range(n)] *)
Definition range (n : Z) : list Z := map Z.of_nat (seq 0 (Z.to_nat n)).
End PyList.

(** An insertion-ordered dictionary with integer keys. *)
Module PyDict.
Section WithV.
Context {V : Type}.

Definition t := list (Z * V).

(** [d.get(k)] *)
Fixpoint get (k : Z) (d : t) : option V :=
  match d with
  | [] => None
  | (k', v) :: d' => if decide (k = k') then Some v else get k d'
  end.

(** [k in d] *)
Definition mem (k : Z) (d : t) : bool :=
  match get k d with Some _ => true | None => false end.

(** [d[k] = v]: an existing key keeps its position, a new key goes last. *)
Fixpoint set (k : Z) (v : V) (d : t) : t :=
  match d with
  | [] => [(k, v)]
  | (k', v') :: d' =>
      if decide (k = k') then (k', v) :: d' else (k', v') :: set k v d'
  end.

(** [del d[k]] (the caller has checked [k in d]) *)
Fixpoint del (k : Z) (d : t) : t :=
  match d with
  | [] => []
  | (k', v') :: d' =>
      if decide (k = k') then del k d' else (k', v') :: del k d'
  end.

(** [list(d.values())] *)
Definition values (d : t) : list V := map snd d.

Definition keys (d : t) : list Z := map fst d.

(** A dictionary holds each key once. *)
Definition wf (d : t) : Prop := NoDup (keys d).
End WithV.
Arguments t : clear implicits.
End PyDict.

(** ** Models / schemas *)

Definition datetime := Z.

Record NoteCreate := mkNoteCreate {
  nc_title : string;
  nc_content : string;
  nc_tags : option (list string)
}.

Record NoteUpdate := mkNoteUpdate {
  nu_title : option string;
  nu_content : option string;
  nu_tags : option (list string)
}.

Record Note := mkNote {
  id : Z;
  title : string;
  content : string;
  tags : list string;
  created_at : datetime;
  updated_at : datetime
}.

Record PaginatedNotes := mkPaginatedNotes {
  items : list Note;
  total : Z;
  page : Z;
  page_size : Z
}.

(** ** The store *)

Record InMemoryNoteStore := mkStore {
  _notes : PyDict.t Note;
  _next_id : Z
}.

(** [InMemoryNoteStore.__init__] *)
Definition init : InMemoryNoteStore := {| _notes := []; _next_id := 1 |}.

(** [data.tags or []] *)
Definition tags_or_empty (tags : option (list string)) : list string :=
  match tags with
  | Some (x :: l) => x :: l
  | Some [] => []
  | None => []
  end.

(** [InMemoryNoteStore.create_note]; [now] is the reading of [_utcnow()]. *)
Definition create_note (self : InMemoryNoteStore) (data : NoteCreate) (now : datetime)
  : Note * InMemoryNoteStore :=
  let note := {| id := _next_id self;
                 title := nc_title data;
                 content := nc_content data;
                 tags := tags_or_empty (nc_tags data);
                 created_at := now;
                 updated_at := now |} in
  (note, {| _notes := PyDict.set (_next_id self) note (_notes self);
            _next_id := _next_id self + 1 |}).

(** [InMemoryNoteStore.get_note] *)
Definition get_note (self : InMemoryNoteStore) (note_id : Z) : option Note :=
  PyDict.get note_id (_notes self).

(** The [updated_fields] dictionary of [update_note], as the list of the
    assignments it holds, in insertion order. *)
Inductive field_update :=
| SetTitle (v : string)
| SetContent (v : string)
| SetTags (v : list string).

Definition updated_fields (patch : NoteUpdate) : list field_update :=
  (match nu_title patch with Some v => [SetTitle v] | None => [] end) ++
  (match nu_content patch with Some v => [SetContent v] | None => [] end) ++
  (match nu_tags patch with Some v => [SetTags v] | None => [] end).

(** [setattr(existing, k, v)] *)
Definition setattr (existing : Note) (kv : field_update) : Note :=
  match kv with
  | SetTitle v =>
      {| id := id existing; title := v; content := content existing;
         tags := tags existing; created_at := created_at existing;
         updated_at := updated_at existing |}
  | SetContent v =>
      {| id := id existing; title := title existing; content := v;
         tags := tags existing; created_at := created_at existing;
         updated_at := updated_at existing |}
  | SetTags v =>
      {| id := id existing; title := title existing; content := content existing;
         tags := v; created_at := created_at existing;
         updated_at := updated_at existing |}
  end.

Definition set_updated_at (existing : Note) (now : datetime) : Note :=
  {| id := id existing; title := title existing; content := content existing;
     tags := tags existing; created_at := created_at existing;
     updated_at := now |}.

(** [InMemoryNoteStore.update_note].  The stored object is mutated in
    place: the dictionary keeps the entry at its position with the new
    field values.  [now] is read only when some field is present. *)
Definition update_note (self : InMemoryNoteStore) (note_id : Z) (patch : NoteUpdate)
    (now : datetime) : option Note * InMemoryNoteStore :=
  match PyDict.get note_id (_notes self) with
  | None => (None, self)
  | Some existing =>
      match updated_fields patch with
      | [] => (Some existing, self)
      | fields =>
          let existing' := set_updated_at (fold_left setattr fields existing) now in
          (Some existing',
           {| _notes := PyDict.set note_id existing' (_notes self);
              _next_id := _next_id self |})
      end
  end.

(** [InMemoryNoteStore.delete_note] *)
Definition delete_note (self : InMemoryNoteStore) (note_id : Z)
  : bool * InMemoryNoteStore :=
  if PyDict.mem note_id (_notes self)
  then (true, {| _notes := PyDict.del note_id (_notes self);
                 _next_id := _next_id self |})
  else (false, self).

(** The payload built in iteration [i] of [seed]. *)
Definition seed_payload (i : Z) : NoteCreate :=
  {| nc_title := "Sample Note " +:+ pretty (i + 1);
     nc_content := "This is a sample note #" +:+ pretty (i + 1) +:+ ".";
     nc_tags := Some (if decide (i mod 2 = 0) then ["sample"; "demo"] else ["notes"]) |}.

(** The [for] loop of [seed] over the indices [l]; [clock i] is the
    reading of [_utcnow()] made by the [create_note] call of iteration
    [i]. *)
Definition seed_loop (clock : Z -> datetime) (l : list Z) (self : InMemoryNoteStore)
  : InMemoryNoteStore :=
  fold_left (fun s i => snd (create_note s (seed_payload i) (clock i))) l self.

(** [InMemoryNoteStore.seed] *)
Definition seed (self : InMemoryNoteStore) (count : Z) (clock : Z -> datetime)
  : Z * InMemoryNoteStore :=
  (count, seed_loop clock (PyList.range count) self).

(** [InMemoryNoteStore.reset] *)
Definition reset (self : InMemoryNoteStore) : InMemoryNoteStore :=
  {| _notes := []; _next_id := 1 |}.

Section Search.
(** Python's [str.lower]. *)
Variable lower : string -> string.

(** The condition of the comprehension in [list_notes]. *)
Definition matches (q_lower : string) (n : Note) : bool :=
  PyStr.contains q_lower (lower (title n)) || PyStr.contains q_lower (lower (content n)).

(** The notes that pass the filter of a listing, before pagination: all
    of them when [q] is [None] or empty, else the ones that match. *)
Definition filtered (self : InMemoryNoteStore) (q : option string) : list Note :=
  let notes := PyDict.values (_notes self) in
  match q with
  | Some q' =>
      if PyStr.truthy q'
      then List.filter (matches (lower q')) notes
      else notes
  | None => notes
  end.

(** [InMemoryNoteStore.list_notes] *)
Definition list_notes (self : InMemoryNoteStore) (q : option string)
    (page page_size : Z) : PaginatedNotes :=
  let notes := PyDict.values (_notes self) in
  let notes :=
    match q with
    | Some q' =>
        if PyStr.truthy q'
        then let q_lower := lower q' in List.filter (matches q_lower) notes
        else notes
    | None => notes
    end in
  let total := Z.of_nat (length notes) in
  let start := (page - 1) * page_size in
  let end_ := start + page_size in
  let page_items := PyList.slice notes start end_ in
  {| items := page_items; total := total; page := page; page_size := page_size |}.
End Search.

(** ** Calls on the store

    The transport layer reaches the store only through its seven public
    methods.  A [call] is one such invocation with its arguments (and the
    clock readings it will make); [step] performs it. *)

Inductive call :=
| Create (data : NoteCreate) (now : datetime)
| Get (note_id : Z)
| ListNotes (q : option string) (page page_size : Z)
| Update (note_id : Z) (patch : NoteUpdate) (now : datetime)
| Delete (note_id : Z)
| Seed (count : Z) (clock : Z -> datetime)
| Reset.

Inductive result :=
| RNote (n : Note)
| ROptNote (n : option Note)
| RPage (p : PaginatedNotes)
| RBool (b : bool)
| RInt (z : Z)
| RNone.

Definition is_reset (c : call) : bool :=
  match c with Reset => true | _ => false end.

Section Calls.
Variable lower : string -> string.

Definition step (self : InMemoryNoteStore) (c : call) : result * InMemoryNoteStore :=
  match c with
  | Create data now => let '(n, s) := create_note self data now in (RNote n, s)
  | Get note_id => (ROptNote (get_note self note_id), self)
  | ListNotes q page page_size => (RPage (list_notes lower self q page page_size), self)
  | Update note_id patch now =>
      let '(n, s) := update_note self note_id patch now in (ROptNote n, s)
  | Delete note_id => let '(b, s) := delete_note self note_id in (RBool b, s)
  | Seed count clock => let '(z, s) := seed self count clock in (RInt z, s)
  | Reset => (RNone, reset self)
  end.

(** The calls of a list, one after the other; their results in order. *)
Fixpoint run (self : InMemoryNoteStore) (cs : list call)
  : list result * InMemoryNoteStore :=
  match cs with
  | [] => ([], self)
  | c :: cs' =>
      let '(r, s) := step self c in
      let '(rs, s') := run s cs' in
      (r :: rs, s')
  end.
End Calls.

(** The ids of the notes returned by the [create_note] calls of a run. *)
Fixpoint created_ids (rs : list result) : list Z :=
  match rs with
  | [] => []
  | RNote n :: rs' => id n :: created_ids rs'
  | _ :: rs' => created_ids rs'
  end.

(** Every key of the note map was handed out by the counter. *)
Definition store_inv (self : InMemoryNoteStore) : Prop :=
  1 <= _next_id self /\
  Forall (fun k => 1 <= k < _next_id self) (PyDict.keys (_notes self)).

(** The note map is a dictionary (each key once) and a note is filed
    under its own id. *)
Definition notes_keyed (self : InMemoryNoteStore) : Prop :=
  PyDict.wf (_notes self) /\
  Forall (fun kn => id (snd kn) = fst kn) (_notes self).

(** [ceil(a / b)] for a positive [b]. *)
Definition ceil_div (a b : Z) : Z := (a + b - 1) / b.

(** The page numbers [1 .. ceil(total / page_size)]. *)
Definition page_numbers (total page_size : Z) : list Z :=
  map (fun k => k + 1) (PyList.range (ceil_div total page_size)).

(** The test of the comprehension in [list_notes], on one field [s]:
    [q.lower()] occurs in [s.lower()]. *)
Definition lowered_contains (lower : string -> string) (q s : string) : Prop :=
  exists pre post, lower s = pre +:+ lower q +:+ post.

(** [s] contains [q] as a case-insensitive substring: some contiguous
    part [u] of [s] is [q] up to the case of its letters, that is, [u]
    and [q] have the same lower-case form.  A part equal to [q] itself
    qualifies. *)
Definition ci_substring (lower : string -> string) (q s : string) : Prop :=
  exists pre u post, s = pre +:+ u +:+ post /\ lower u = lower q.

(** Values of [str.lower].  Text is held as its UTF-8 bytes.  On ASCII
    text [str.lower] folds the letters [A-Z].  A capital sigma is
    lowered according to its place in the word: ['Σ'.lower()] is ['σ'],
    and ['ΟΔΟΣ'.lower()] is ['οδος'], with the final form of the small
    sigma. *)
Definition lower_sample (s : string) : string :=
  if decide (s = "ΟΔΟΣ") then "οδος"
  else if decide (s = "Σ") then "σ"
  else PyStr.ascii_lower s.

(** The store after one [create_note] of a note titled [ΟΔΟΣ]. *)
Definition sigma_store : InMemoryNoteStore :=
  snd (create_note init (mkNoteCreate "ΟΔΟΣ" "x" None) 0).

(** The note that [seed] creates in iteration [i] when the counter stood
    at [base] before the loop. *)
Definition seed_note (base : Z) (clock : Z -> datetime) (i : Z) : Note :=
  {| id := base + i;
     title := "Sample Note " +:+ pretty (i + 1);
     content := "This is a sample note #" +:+ pretty (i + 1) +:+ ".";
     tags := if decide (i mod 2 = 0) then ["sample"; "demo"] else ["notes"];
     created_at := clock i;
     updated_at := clock i |}.

(** ** Routes

    The route functions, as functions of their (already validated)
    arguments and of the injected store.  A raised [HTTPException] is the
    left summand of the result. *)

Record HTTPException := mkHTTPException {
  status_code : Z;
  detail : string
}.

(** [status.HTTP_404_NOT_FOUND] *)
Definition HTTP_404_NOT_FOUND : Z := 404.

(** [create_note_endpoint] *)
Definition create_note_endpoint (payload : NoteCreate) (repo : InMemoryNoteStore)
    (now : datetime) : Note * InMemoryNoteStore :=
  create_note repo payload now.

(** [list_notes_endpoint] *)
Definition list_notes_endpoint (lower : string -> string) (page page_size : Z)
    (q : option string) (repo : InMemoryNoteStore) : PaginatedNotes :=
  list_notes lower repo q page page_size.

(** [get_note_endpoint] *)
Definition get_note_endpoint (note_id : Z) (repo : InMemoryNoteStore)
  : HTTPException + Note :=
  match get_note repo note_id with
  | None => inl {| status_code := HTTP_404_NOT_FOUND; detail := "Note not found" |}
  | Some note => inr note
  end.

(** [update_note_endpoint] *)
Definition update_note_endpoint (note_id : Z) (patch : NoteUpdate)
    (repo : InMemoryNoteStore) (now : datetime)
  : (HTTPException + Note) * InMemoryNoteStore :=
  let '(updated, repo') := update_note repo note_id patch now in
  match updated with
  | None => (inl {| status_code := HTTP_404_NOT_FOUND; detail := "Note not found" |}, repo')
  | Some n => (inr n, repo')
  end.

(** [delete_note_endpoint] *)
Definition delete_note_endpoint (note_id : Z) (repo : InMemoryNoteStore)
  : (HTTPException + unit) * InMemoryNoteStore :=
  let '(ok, repo') := delete_note repo note_id in
  if negb ok
  then (inl {| status_code := HTTP_404_NOT_FOUND; detail := "Note not found" |}, repo')
  else (inr tt, repo').

(** [seed_notes_endpoint]; the returned dictionary is [{"created": created}]. *)
Definition seed_notes_endpoint (count : Z) (repo : InMemoryNoteStore)
    (clock : Z -> datetime) : list (string * Z) * InMemoryNoteStore :=
  let '(created, repo') := seed repo count clock in
  ([("created", created)], repo').

(** ** Notions used by the further properties *)

(** Two patches applied one after the other, as one patch: a field of
    the later patch wins. *)
Definition merge_patch (p1 p2 : NoteUpdate) : NoteUpdate :=
  {| nu_title := match nu_title p2 with Some v => Some v | None => nu_title p1 end;
     nu_content := match nu_content p2 with Some v => Some v | None => nu_content p1 end;
     nu_tags := match nu_tags p2 with Some v => Some v | None => nu_tags p1 end |}.

(** The clock readings that a call hands to the store. *)
Definition call_readings (c : call) : list datetime :=
  match c with
  | Create _ now => [now]
  | Update _ _ now => [now]
  | Seed count clock => map clock (PyList.range count)
  | _ => []
  end.

(** No stored note was updated before it was created, nor after [t]. *)
Definition stamps_before (t : datetime) (self : InMemoryNoteStore) : Prop :=
  Forall (fun n => created_at n <= updated_at n <= t) (PyDict.values (_notes self)).

(** The notes are stored in ascending order of their keys. *)
Definition keys_ascending (self : InMemoryNoteStore) : Prop :=
  StronglySorted Z.lt (PyDict.keys (_notes self)).

(** ** Sample data *)

Definition demo_store : InMemoryNoteStore :=
  {| _notes := [ (1, mkNote 1 "Hello World" "first" ["a"; "b"] 10 10);
                 (3, mkNote 3 "groceries" "Milk, eggs" [] 12 15) ];
     _next_id := 4 |}.

Definition demo_calls : list call :=
  [ Create (mkNoteCreate "A" "B" None) 20;
    Delete 4;
    Create (mkNoteCreate "C" "D" (Some ["x"])) 21;
    Seed 2 (fun i => 30 + i);
    Update 5 (mkNoteUpdate None None (Some [])) 40;
    Create (mkNoteCreate "E" "F" None) 41 ].

Example seed_demo :
  PyDict.values (_notes (snd (seed init 2 (fun i => 100 + i)))) =
  [ mkNote 1 "Sample Note 1" "This is a sample note #1." ["sample"; "demo"] 100 100;
    mkNote 2 "Sample Note 2" "This is a sample note #2." ["notes"] 101 101 ].
Proof. vm_compute. reflexivity. Qed.

Example scenario_demo :
  fst (run PyStr.ascii_lower init
         [ Create (mkNoteCreate "A" "B" None) 100;
           Create (mkNoteCreate "C" "D" None) 101;
           Update 1 (mkNoteUpdate None None (Some ["x"])) 102;
           Delete 2;
           ListNotes None 1 10 ]) =
  [ RNote (mkNote 1 "A" "B" [] 100 100);
    RNote (mkNote 2 "C" "D" [] 101 101);
    ROptNote (Some (mkNote 1 "A" "B" ["x"] 100 102));
    RBool true;
    RPage (mkPaginatedNotes [mkNote 1 "A" "B" ["x"] 100 102] 1 1 10) ].
Proof. vm_compute. reflexivity. Qed.

Example lower_demo : PyStr.ascii_lower "Hello World-Z@[az" = "hello world-z@[az".
Proof. vm_compute. reflexivity. Qed.

Example slice_demo :
  PyList.slice [1;2;3;4;5] 2 4 = [3;4] /\ PyList.slice [1;2;3;4;5] (-2) 10 = [4;5]
  /\ PyList.slice [1;2;3;4;5] 4 2 = [] /\ PyList.slice [1;2;3;4;5] 7 9 = [].
Proof. vm_compute. repeat split. Qed.

(** ** Facts about the builtins *)

Module PyDictFacts.
Import PyDict.
Section WithV.
Context {V : Type}.
Implicit Types (d : PyDict.t V) (k : Z) (v : V).

Lemma get_None_keys d k : get k d = None <-> k ∉ keys d.
Proof.
  induction d as [|[k' v'] d IH]; simpl.
  - split; [intros _; apply not_elem_of_nil | done].
  - rewrite not_elem_of_cons. destruct (decide (k = k')); [|tauto].
    split; [done | tauto].
Qed.

Lemma mem_true d k : mem k d = true <-> is_Some (get k d).
Proof.
  unfold mem. destruct (get k d).
  - split; eauto.
  - split; [done | by intros [? ?]].
Qed.

Lemma get_set_eq d k v : get k (set k v d) = Some v.
Proof.
  induction d as [|[k' v'] d IH]; simpl.
  - by rewrite decide_True.
  - destruct (decide (k = k')) as [->|?]; simpl.
    + by rewrite decide_True.
    + by rewrite decide_False.
Qed.

Lemma get_set_ne d k k' v : k <> k' -> get k' (set k v d) = get k' d.
Proof.
  intros Hne. induction d as [|[k0 v0] d IH]; simpl.
  - by rewrite decide_False.
  - destruct (decide (k = k0)) as [->|?]; simpl.
    + by rewrite !decide_False.
    + destruct (decide (k' = k0)); done.
Qed.

Lemma keys_set_present d k v : is_Some (get k d) -> keys (set k v d) = keys d.
Proof.
  induction d as [|[k0 v0] d IH]; simpl.
  - intros [? ?]. done.
  - destruct (decide (k = k0)) as [->|?]; simpl; [done|].
    intros H. f_equal. by apply IH.
Qed.

Lemma set_absent d k v : get k d = None -> set k v d = d ++ [(k, v)].
Proof.
  induction d as [|[k0 v0] d IH]; simpl; [done|].
  destruct (decide (k = k0)); [done|].
  intros H. f_equal. by apply IH.
Qed.

Lemma keys_set d k v :
  keys (set k v d) = if mem k d then keys d else keys d ++ [k].
Proof.
  unfold mem. destruct (get k d) eqn:E.
  - apply keys_set_present. by eexists.
  - rewrite set_absent by done. unfold keys. by rewrite map_app.
Qed.

Lemma get_del_eq d k : get k (del k d) = None.
Proof.
  induction d as [|[k0 v0] d IH]; simpl; [done|].
  destruct (decide (k = k0)); simpl; [done|]. by rewrite decide_False.
Qed.

Lemma get_del_ne d k k' : k <> k' -> get k' (del k d) = get k' d.
Proof.
  intros Hne. induction d as [|[k0 v0] d IH]; simpl; [done|].
  destruct (decide (k = k0)) as [->|?]; simpl.
  - by rewrite decide_False.
  - by rewrite IH.
Qed.

Lemma del_absent d k : get k d = None -> del k d = d.
Proof.
  induction d as [|[k0 v0] d IH]; simpl; [done|].
  destruct (decide (k = k0)); [done|].
  intros H. f_equal. by apply IH.
Qed.

Lemma keys_del d k : keys (del k d) = List.filter (fun k' => negb (Z.eqb k k')) (keys d).
Proof.
  induction d as [|[k0 v0] d IH]; simpl; [done|].
  destruct (decide (k = k0)) as [->|Hne]; simpl.
  - by rewrite Z.eqb_refl.
  - apply Z.eqb_neq in Hne. rewrite Hne. simpl. by rewrite IH.
Qed.

Lemma keys_del_Forall (P : Z -> Prop) d k :
  Forall P (keys d) -> Forall P (keys (del k d)).
Proof.
  rewrite keys_del. intros H. rewrite List.Forall_forall in *.
  intros x Hx. apply List.filter_In in Hx. apply H, Hx.
Qed.

Lemma get_Some_elem d k v : get k d = Some v -> (k, v) ∈ d.
Proof.
  induction d as [|[k0 v0] d IH]; simpl; [done|].
  destruct (decide (k = k0)) as [->|?].
  - intros [= ->]. apply list_elem_of_here.
  - intros H. apply list_elem_of_further. by apply IH.
Qed.

Lemma Forall_set (P : Z * V -> Prop) d k v :
  Forall P d -> P (k, v) -> Forall P (set k v d).
Proof.
  intros Hd Hkv. induction Hd as [|[k0 v0] d H0 Hd IH]; simpl.
  - by constructor.
  - destruct (decide (k = k0)) as [->|?]; constructor; done.
Qed.

Lemma Forall_del (P : Z * V -> Prop) d k : Forall P d -> Forall P (del k d).
Proof.
  intros Hd. induction Hd as [|[k0 v0] d H0 Hd IH]; simpl; [done|].
  destruct (decide (k = k0)); [done | by constructor].
Qed.

Lemma wf_set d k v : wf d -> wf (set k v d).
Proof.
  unfold wf. rewrite keys_set. unfold mem.
  destruct (get k d) eqn:E; [done|].
  intros Hnd. apply NoDup_app. split_and!; [done| |apply NoDup_singleton].
  intros x Hx ->%list_elem_of_singleton. by apply get_None_keys in E.
Qed.

Lemma wf_del d k : wf d -> wf (del k d).
Proof.
  unfold wf. rewrite keys_del. intros H%NoDup_ListNoDup.
  apply NoDup_ListNoDup. by apply List.NoDup_filter.
Qed.
End WithV.
End PyDictFacts.

Module PyStrFacts.
Import PyStr.

Lemma startswith_spec p s :
  startswith p s = true <-> exists post, s = p +:+ post.
Proof.
  revert s. induction p as [|a p IH]; intros s; simpl.
  - split; [intros _; by exists s | done].
  - destruct s as [|b s].
    + split; [done | intros [post H]; discriminate H].
    + destruct (decide (a = b)) as [->|Hne].
      * rewrite IH. split; intros [post H]; exists post.
        -- by rewrite H.
        -- by injection H.
      * split; [done | intros [post H]; injection H; congruence].
Qed.

Lemma contains_spec p s :
  contains p s = true <-> exists pre post, s = pre +:+ p +:+ post.
Proof.
  induction s as [|a s IH]; simpl; rewrite orb_true_iff, startswith_spec.
  - split.
    + intros [[post H]|H]; [|done]. by exists "", post.
    + intros ([|b pre] & post & H); [|discriminate H].
      left. by exists post.
  - rewrite IH. split.
    + intros [[post H]|(pre & post & H)].
      * by exists "", post.
      * exists (String a pre), post. simpl. by rewrite H.
    + intros ([|b pre] & post & H).
      * left. by exists post.
      * right. exists pre, post. simpl in H. by injection H.
Qed.

Lemma truthy_spec s : truthy s = true <-> s <> "".
Proof. destruct s; simpl; split; done. Qed.
End PyStrFacts.

Module PyListFacts.
Import PyList.
Section WithA.
Context {A : Type}.
Implicit Types l : list A.

(** A slice whose bounds are not negative is a [take] of a [drop]. *)
Lemma slice_nonneg l start n :
  0 <= start -> 0 <= n ->
  slice l start (start + n) = take (Z.to_nat n) (drop (Z.to_nat start) l).
Proof.
  intros Hs Hn. unfold slice, clamp.
  destruct (Z.ltb_spec start 0); [lia|].
  destruct (Z.ltb_spec (start + n) 0); [lia|].
  destruct (Z.le_gt_cases start (Z.of_nat (length l))) as [Hle|Hgt].
  - rewrite (Z.min_l start) by lia.
    destruct (Z.le_gt_cases (start + n) (Z.of_nat (length l))).
    + rewrite Z.min_l by lia. f_equal. lia.
    + rewrite Z.min_r by lia.
      rewrite (take_ge _ (Z.to_nat n)) by (rewrite length_drop; lia).
      apply take_ge. rewrite length_drop. lia.
  - rewrite !Z.min_r by lia. rewrite Z.sub_diag. simpl.
    rewrite (drop_ge l (Z.to_nat start)) by lia. by rewrite take_nil.
Qed.

(** Consecutive chunks of equal size rebuild a prefix of the list. *)
Lemma concat_chunks l (ps m : nat) :
  concat (map (fun k => take ps (drop (k * ps) l)) (seq 0 m)) = take (m * ps) l.
Proof.
  induction m as [|m IH].
  - by rewrite take_0.
  - rewrite seq_S, map_app, concat_app, IH. simpl.
    rewrite app_nil_r, take_take_drop. f_equal. lia.
Qed.
End WithA.

Lemma range_nonpos n : n <= 0 -> range n = [].
Proof. intros H. unfold range. by replace (Z.to_nat n) with 0%nat by lia. Qed.

Lemma range_succ n : 0 <= n -> range (n + 1) = range n ++ [n].
Proof.
  intros H. unfold range.
  replace (Z.to_nat (n + 1)) with (S (Z.to_nat n)) by lia.
  rewrite seq_S, map_app. simpl. by rewrite Z2Nat.id by lia.
Qed.
End PyListFacts.

Lemma ceil_div_bounds a b :
  0 < b -> (ceil_div a b - 1) * b < a <= ceil_div a b * b.
Proof.
  intros Hb. unfold ceil_div.
  pose proof (Z.div_mod (a + b - 1) b ltac:(lia)) as Hdm.
  pose proof (Z.mod_pos_bound (a + b - 1) b Hb) as Hr.
  nia.
Qed.

(** ** The store's operations *)

Import PyDictFacts.


(** C2. Reading back the id that [create_note] has just returned gives the
    created note: its title, content and tags are the arguments of the
    call (no tags when they were omitted) and its two timestamps are
    equal. *)
Theorem create_then_get (self : InMemoryNoteStore) (data : NoteCreate) (now : datetime) :
  let note := fst (create_note self data now) in
  let self' := snd (create_note self data now) in
  get_note self' (id note) = Some note /\
  title note = nc_title data /\
  content note = nc_content data /\
  tags note = default [] (nc_tags data) /\
  created_at note = updated_at note.
Proof.
  simpl. unfold get_note. simpl. rewrite get_set_eq.
  split_and!; try reflexivity.
  by destruct (nc_tags data) as [[|x l]|].
Qed.

Lemma updated_fields_nil patch :
  updated_fields patch = [] <->
  nu_title patch = None /\ nu_content patch = None /\ nu_tags patch = None.
Proof.
  unfold updated_fields.
  destruct (nu_title patch), (nu_content patch), (nu_tags patch); simpl;
    split; try done; intros (? & ? & ?); done.
Qed.

Lemma apply_updated_fields patch existing :
  let n := fold_left setattr (updated_fields patch) existing in
  title n = default (title existing) (nu_title patch) /\
  content n = default (content existing) (nu_content patch) /\
  tags n = default (tags existing) (nu_tags patch) /\
  id n = id existing /\ created_at n = created_at existing /\
  updated_at n = updated_at existing.
Proof.
  unfold updated_fields.
  destruct (nu_title patch), (nu_content patch), (nu_tags patch); simpl; done.
Qed.

(** [update_note] on a present note with some field in the patch. *)
Lemma update_note_present self note_id patch now existing :
  get_note self note_id = Some existing ->
  updated_fields patch <> [] ->
  update_note self note_id patch now =
    (Some (set_updated_at (fold_left setattr (updated_fields patch) existing) now),
     {| _notes := PyDict.set note_id
                    (set_updated_at (fold_left setattr (updated_fields patch) existing) now)
                    (_notes self);
        _next_id := _next_id self |}).
Proof.
  unfold get_note, update_note. intros -> Hne.
  destruct (updated_fields patch); done.
Qed.

(** C3. Updating a present note with a patch that carries some field
    replaces exactly the fields present in the patch by the patch's values
    (so a patch with only a title changes the title and keeps content and
    tags; the tags of a patch become the tags, whatever they were) and
    sets [updated_at] to the current time; [id] and [created_at] stay, the
    note is stored under its id, and every other note, the order of the
    notes and the id counter are as before. *)
Theorem update_note_partial (self : InMemoryNoteStore) (note_id : Z)
    (patch : NoteUpdate) (now : datetime) (existing : Note) :
  get_note self note_id = Some existing ->
  nu_title patch <> None \/ nu_content patch <> None \/ nu_tags patch <> None ->
  exists n',
    fst (update_note self note_id patch now) = Some n' /\
    get_note (snd (update_note self note_id patch now)) note_id = Some n' /\
    title n' = default (title existing) (nu_title patch) /\
    content n' = default (content existing) (nu_content patch) /\
    tags n' = default (tags existing) (nu_tags patch) /\
    updated_at n' = now /\
    id n' = id existing /\
    created_at n' = created_at existing /\
    (forall k, k <> note_id ->
       get_note (snd (update_note self note_id patch now)) k = get_note self k) /\
    PyDict.keys (_notes (snd (update_note self note_id patch now))) =
      PyDict.keys (_notes self) /\
    _next_id (snd (update_note self note_id patch now)) = _next_id self.
Proof.
  intros Hget Hsome.
  assert (updated_fields patch <> []) as Hne.
  { rewrite updated_fields_nil. intros (? & ? & ?). tauto. }
  rewrite (update_note_present _ _ _ _ _ Hget Hne). simpl.
  destruct (apply_updated_fields patch existing) as (Ht & Hc & Hg & Hi & Hcr & _).
  eexists. split; [reflexivity|]. unfold get_note. simpl.
  split_and!; try done.
  - apply get_set_eq.
  - intros k Hk. apply get_set_ne. congruence.
  - apply keys_set_present. unfold get_note in Hget. by rewrite Hget.
Qed.

Lemma update_note_partial_witness :
  exists n',
    fst (update_note demo_store 1 (mkNoteUpdate (Some "X") None None) 99) = Some n' /\
    title n' = "X" /\ content n' = "first" /\ tags n' = ["a"; "b"] /\
    updated_at n' = 99 /\ created_at n' = 10.
Proof.
  destruct (update_note_partial demo_store 1 (mkNoteUpdate (Some "X") None None) 99
              (mkNote 1 "Hello World" "first" ["a"; "b"] 10 10))
    as (n' & H1 & _ & H3 & H4 & H5 & H6 & _ & H8 & _).
  - reflexivity.
  - left. discriminate.
  - exists n'. repeat split; assumption.
Defined.

(** C4. Updating a present note with a patch that carries no field
    returns the stored note as it is, [updated_at] included, and the whole
    store state is the same as before. *)
Theorem update_note_empty_patch (self : InMemoryNoteStore) (note_id : Z)
    (now : datetime) (existing : Note) :
  get_note self note_id = Some existing ->
  update_note self note_id
    {| nu_title := None; nu_content := None; nu_tags := None |} now
  = (Some existing, self).
Proof. unfold get_note, update_note. intros ->. reflexivity. Qed.

Lemma update_note_empty_patch_witness :
  update_note demo_store 3 (mkNoteUpdate None None None) 99
  = (Some (mkNote 3 "groceries" "Milk, eggs" [] 12 15), demo_store).
Proof. apply update_note_empty_patch. reflexivity. Defined.

(** C7. [delete_note] answers [True] exactly when the id is present, and
    then the note is gone: [get_note] finds nothing, a second delete
    answers [False], and the other notes are still there.  When the id is
    absent the answer is [False] and the store state is unchanged. *)
Theorem delete_note_spec (self : InMemoryNoteStore) (note_id : Z) :
  (fst (delete_note self note_id) = true <-> is_Some (get_note self note_id)) /\
  (fst (delete_note self note_id) = true ->
     get_note (snd (delete_note self note_id)) note_id = None /\
     delete_note (snd (delete_note self note_id)) note_id
       = (false, snd (delete_note self note_id)) /\
     (forall k, k <> note_id ->
        get_note (snd (delete_note self note_id)) k = get_note self k) /\
     _next_id (snd (delete_note self note_id)) = _next_id self) /\
  (get_note self note_id = None -> delete_note self note_id = (false, self)).
Proof.
  unfold delete_note, get_note.
  destruct (PyDict.mem note_id (_notes self)) eqn:Hmem; simpl.
  - apply mem_true in Hmem. split_and!; [done| |].
    + intros _. unfold PyDict.mem. rewrite get_del_eq. split_and!; try done.
      intros k Hk. by apply get_del_ne.
    + intros H. rewrite H in Hmem. by destruct Hmem.
  - split_and!; try done. rewrite <- mem_true, Hmem. done.
Qed.

Lemma delete_note_spec_witness :
  get_note (snd (delete_note demo_store 3)) 3 = None /\
  delete_note (snd (delete_note demo_store 3)) 3 = (false, snd (delete_note demo_store 3)) /\
  delete_note demo_store 2 = (false, demo_store).
Proof.
  destruct (delete_note_spec demo_store 3) as (_ & H & _).
  destruct (delete_note_spec demo_store 2) as (_ & _ & H').
  destruct H as (H1 & H2 & _); [reflexivity|].
  split_and!; [exact H1 | exact H2 | apply H'; reflexivity].
Defined.

(** C8. After [reset] the store holds no note: listing the first page of
    ten without a query reports a total of 0 and no items, and the next
    [create_note] returns a note with id 1. *)
Theorem reset_clears_and_rewinds (lower : string -> string)
    (self : InMemoryNoteStore) (data : NoteCreate) (now : datetime) :
  _notes (reset self) = [] /\
  total (list_notes lower (reset self) None 1 10) = 0 /\
  items (list_notes lower (reset self) None 1 10) = [] /\
  id (fst (create_note (reset self) data now)) = 1.
Proof. split_and!; reflexivity. Qed.

(** ** The id counter *)


Lemma seed_unfold self count clock :
  seed self count clock = (count, seed_loop clock (PyList.range count) self).
Proof. reflexivity. Qed.

Lemma seed_loop_next_id clock l self :
  _next_id (seed_loop clock l self) = _next_id self + Z.of_nat (length l).
Proof.
  unfold seed_loop. revert self. induction l as [|i l IH]; intros self; simpl.
  - lia.
  - rewrite IH. simpl. lia.
Qed.

Lemma create_note_inv self data now :
  store_inv self -> store_inv (snd (create_note self data now)).
Proof.
  intros [H1 Hk]. split; simpl; [lia|].
  rewrite keys_set. destruct (PyDict.mem _ _).
  - eapply Forall_impl; [exact Hk|]. simpl. intros; lia.
  - apply Forall_app. split.
    + eapply Forall_impl; [exact Hk|]. simpl. intros; lia.
    + apply Forall_singleton. lia.
Qed.

Lemma seed_loop_inv clock l self :
  store_inv self -> store_inv (seed_loop clock l self).
Proof.
  unfold seed_loop. revert self.
  induction l as [|i l IH]; intros self H; cbn [fold_left].
  - done.
  - apply IH. by apply create_note_inv.
Qed.

Lemma update_note_next_id self note_id patch now :
  _next_id (snd (update_note self note_id patch now)) = _next_id self.
Proof.
  unfold update_note. destruct (PyDict.get _ _); [|done].
  destruct (updated_fields patch); done.
Qed.

Lemma update_note_keys self note_id patch now :
  PyDict.keys (_notes (snd (update_note self note_id patch now))) =
  PyDict.keys (_notes self).
Proof.
  unfold update_note. destruct (PyDict.get _ _) eqn:E; [|done].
  destruct (updated_fields patch); [done|]. simpl.
  apply keys_set_present. by rewrite E.
Qed.

Lemma step_inv lower self c :
  store_inv self -> store_inv (snd (step lower self c)).
Proof.
  intros H.
  destruct c as [data now| note_id | q pg ps | note_id patch now | note_id
                | count clock | ]; cbn [step].
  - by apply create_note_inv.
  - done.
  - done.
  - destruct (update_note self note_id patch now) as [r s] eqn:E.
    pose proof (update_note_next_id self note_id patch now) as Hn.
    pose proof (update_note_keys self note_id patch now) as Hk.
    rewrite E in Hn, Hk. cbn in *.
    destruct H as [H1 H2]. split; rewrite ?Hn, ?Hk; done.
  - unfold delete_note. destruct (PyDict.mem _ _); cbn; [|done].
    destruct H as [H1 H2]. split; cbn; [done|]. by apply keys_del_Forall.
  - rewrite seed_unfold. cbn [snd]. by apply seed_loop_inv.
  - split; cbn; [lia | constructor].
Qed.

Lemma run_inv lower cs self :
  store_inv self -> store_inv (snd (run lower self cs)).
Proof.
  revert self. induction cs as [|c cs IH]; intros self H; simpl; [done|].
  pose proof (step_inv lower self c H) as Hs.
  destruct (step lower self c) as [r s]. simpl in Hs.
  specialize (IH s Hs). destruct (run lower s cs) as [rs s']. done.
Qed.

(** C10. Every key of the note map lies in [1 .. _next_id - 1] and
    [_next_id] is at least 1: this holds of the initial store, each of
    the seven operations keeps it, so it holds after any run of calls. *)
Theorem store_inv_preserved (lower : string -> string) :
  store_inv init /\
  (forall self c, store_inv self -> store_inv (snd (step lower self c))) /\
  (forall cs, store_inv (snd (run lower init cs))).
Proof.
  assert (store_inv init) as Hinit by (split; simpl; [lia | constructor]).
  split_and!; [done | apply step_inv |].
  intros cs. by apply run_inv.
Qed.

Lemma demo_store_inv : store_inv demo_store.
Proof.
  split; simpl; [lia|]. repeat constructor; simpl; lia.
Defined.

Lemma store_inv_preserved_witness :
  store_inv (snd (step PyStr.ascii_lower demo_store (Delete 1))) /\
  store_inv (snd (step PyStr.ascii_lower demo_store
                    (Create (mkNoteCreate "t" "c" None) 20))).
Proof.
  destruct (store_inv_preserved PyStr.ascii_lower) as (_ & Hstep & _).
  split; apply Hstep; exact demo_store_inv.
Defined.

Lemma step_next_id lower self c :
  is_reset c = false ->
  _next_id self <= _next_id (snd (step lower self c)) /\
  (forall n, fst (step lower self c) = RNote n ->
     id n = _next_id self /\ _next_id (snd (step lower self c)) = _next_id self + 1).
Proof.
  intros Hc.
  destruct c as [data now| note_id | q pg ps | note_id patch now | note_id
                | count clock | ]; cbn [step].
  - cbn. split; [lia|]. intros n [= <-]. done.
  - cbn. split; [lia | done].
  - cbn. split; [lia | done].
  - destruct (update_note self note_id patch now) as [r s] eqn:E.
    pose proof (update_note_next_id self note_id patch now) as Hn.
    rewrite E in Hn. cbn in *. split; [lia | done].
  - unfold delete_note. destruct (PyDict.mem _ _); cbn; (split; [lia | done]).
  - rewrite seed_unfold. cbn [fst snd]. rewrite seed_loop_next_id.
    split; [lia | done].
  - done.
Qed.

Lemma StronglySorted_lt_NoDup (l : list Z) : StronglySorted Z.lt l -> NoDup l.
Proof.
  induction 1 as [|a l Hs IH Hall]; constructor; [|done].
  intros Hin. rewrite List.Forall_forall in Hall.
  apply list_elem_of_In in Hin. specialize (Hall _ Hin). lia.
Qed.

Lemma run_created_ids lower cs self :
  Forall (fun c => is_reset c = false) cs ->
  StronglySorted Z.lt (created_ids (fst (run lower self cs))) /\
  Forall (fun i => _next_id self <= i < _next_id (snd (run lower self cs)))
         (created_ids (fst (run lower self cs))) /\
  _next_id self <= _next_id (snd (run lower self cs)).
Proof.
  revert self. induction cs as [|c cs IH]; intros self Hcs; simpl.
  - split_and!; [constructor | constructor | lia].
  - apply Forall_cons in Hcs as [Hc Hcs].
    destruct (step_next_id lower self c Hc) as [Hle Hid].
    destruct (step lower self c) as [r s]. simpl in Hle, Hid.
    destruct (IH s Hcs) as (Hsorted & Hrange & Hle').
    destruct (run lower s cs) as [rs s']. simpl in *.
    assert (Forall (fun i => _next_id self <= i < _next_id s') (created_ids rs)) as Hr'.
    { eapply Forall_impl; [exact Hrange|]. simpl. intros; lia. }
    destruct r; simpl; try (split_and!; [done | done | lia]).
    destruct (Hid n eq_refl) as [Hn Hs]. split_and!; [| |lia].
    + constructor; [done|].
      eapply Forall_impl; [exact Hrange|]. simpl. intros; lia.
    + constructor; [lia | done].
Qed.

(** C1. In a run of calls without [reset] (creates, possibly mixed with
    reads, updates, deletes and seeds), the ids of the notes returned by
    the creates are strictly increasing, hence pairwise distinct: an id
    is not handed out again, also after its note was deleted.  They lie
    between the counter before and the counter after the run, and the
    counter does not decrease; [reset] sets it back to 1. *)
Theorem create_ids_monotonic (lower : string -> string)
    (self : InMemoryNoteStore) (cs : list call) :
  Forall (fun c => is_reset c = false) cs ->
  StronglySorted Z.lt (created_ids (fst (run lower self cs))) /\
  NoDup (created_ids (fst (run lower self cs))) /\
  Forall (fun i => _next_id self <= i < _next_id (snd (run lower self cs)))
         (created_ids (fst (run lower self cs))) /\
  _next_id self <= _next_id (snd (run lower self cs)) /\
  _next_id (snd (step lower self Reset)) = 1.
Proof.
  intros Hcs. destruct (run_created_ids lower cs self Hcs) as (H1 & H2 & H3).
  split_and!; try done. by apply StronglySorted_lt_NoDup.
Qed.


Lemma create_ids_monotonic_witness :
  created_ids (fst (run PyStr.ascii_lower demo_store demo_calls)) = [4; 5; 8] /\
  StronglySorted Z.lt (created_ids (fst (run PyStr.ascii_lower demo_store demo_calls))).
Proof.
  split; [vm_compute; reflexivity|].
  apply (create_ids_monotonic PyStr.ascii_lower demo_store demo_calls).
  repeat constructor.
Defined.

(** ** Seeding *)

Import PyListFacts.

Lemma elem_of_range i n : i ∈ PyList.range n <-> 0 <= i < n.
Proof.
  unfold PyList.range. rewrite list_elem_of_fmap. split.
  - intros (k & -> & Hk). apply elem_of_seq in Hk. lia.
  - intros H. exists (Z.to_nat i). split; [lia|]. apply elem_of_seq. lia.
Qed.

Lemma length_range n : length (PyList.range n) = Z.to_nat n.
Proof. unfold PyList.range. by rewrite length_map, length_seq. Qed.

Lemma seed_loop_app clock l1 l2 self :
  seed_loop clock (l1 ++ l2) self = seed_loop clock l2 (seed_loop clock l1 self).
Proof. unfold seed_loop. apply fold_left_app. Qed.

Lemma seed_loop_as_run lower clock l self :
  seed_loop clock l self =
  snd (run lower self (map (fun i => Create (seed_payload i) (clock i)) l)).
Proof.
  unfold seed_loop. revert self.
  induction l as [|i l IH]; intros self; cbn [fold_left map run step]; [done|].
  rewrite IH.
  destruct (create_note self (seed_payload i) (clock i)) as [n s]. cbn [snd].
  by destruct (run lower s _).
Qed.

Lemma seed_loop_notes clock (n : nat) self :
  Forall (fun k => k < _next_id self) (PyDict.keys (_notes self)) ->
  seed_loop clock (PyList.range (Z.of_nat n)) self =
  {| _notes := _notes self ++
               map (fun i => (_next_id self + i, seed_note (_next_id self) clock i))
                   (PyList.range (Z.of_nat n));
     _next_id := _next_id self + Z.of_nat n |}.
Proof.
  intros Hfresh. induction n as [|n IH].
  - destruct self. cbn. by rewrite app_nil_r, Z.add_0_r.
  - rewrite Nat2Z.inj_succ, <- Z.add_1_r, range_succ by lia.
    rewrite seed_loop_app, IH. unfold seed_loop, create_note.
    cbn [fold_left snd _next_id _notes].
    f_equal; [|lia].
    rewrite set_absent.
    + rewrite map_app, app_assoc. cbn [map]. do 3 f_equal.
      unfold seed_note, seed_payload. cbn. f_equal.
      by destruct (decide (Z.of_nat n mod 2 = 0)).
    + apply get_None_keys. unfold PyDict.keys. rewrite map_app, map_map. cbn [fst].
      rewrite not_elem_of_app. split.
      * intros Hin. rewrite Forall_forall in Hfresh. specialize (Hfresh _ Hin). lia.
      * rewrite list_elem_of_fmap. intros (i & Heq & Hi%elem_of_range). lia.
Qed.

Lemma create_note_seed_payload self clock base i :
  _next_id self = base + i ->
  create_note self (seed_payload i) (clock i) =
  (seed_note base clock i,
   {| _notes := PyDict.set (base + i) (seed_note base clock i) (_notes self);
      _next_id := base + i + 1 |}).
Proof.
  intros H. unfold create_note, seed_note, seed_payload. rewrite H. cbn.
  by destruct (decide (i mod 2 = 0)).
Qed.

(** The note of index [i] is stored under the id [base + i]. *)
Lemma seed_loop_get clock (n : nat) self i :
  0 <= i < Z.of_nat n ->
  get_note (seed_loop clock (PyList.range (Z.of_nat n)) self) (_next_id self + i)
  = Some (seed_note (_next_id self) clock i).
Proof.
  induction n as [|n IH]; intros Hi; [lia|].
  rewrite Nat2Z.inj_succ, <- Z.add_1_r, range_succ by lia.
  rewrite seed_loop_app. unfold seed_loop at 1. cbn [fold_left].
  rewrite (create_note_seed_payload _ clock (_next_id self)).
  2:{ rewrite seed_loop_next_id, length_range. lia. }
  unfold get_note. cbn [snd _notes].
  destruct (decide (i = Z.of_nat n)) as [->|Hne].
  - apply get_set_eq.
  - rewrite get_set_ne by lia. apply IH. lia.
Qed.

(** The ids outside [base .. base + length l - 1] are not touched. *)
Lemma seed_loop_get_other clock l self k :
  k < _next_id self \/ _next_id self + Z.of_nat (length l) <= k ->
  get_note (seed_loop clock l self) k = get_note self k.
Proof.
  unfold seed_loop. revert self.
  induction l as [|i l IH]; intros self Hk; cbn [fold_left]; [done|].
  rewrite IH.
  - unfold get_note. cbn. apply get_set_ne. cbn [length] in Hk. lia.
  - cbn [length] in Hk. cbn. lia.
Qed.

(** C9. For [count >= 1], [seed] returns [count] and leaves the store in
    the state reached by [count] successive [create_note] calls, one per
    index [0 .. count-1], with the placeholder payload of that index and
    the clock reading made in that iteration; the counter advances by
    [count].  Every index below [count] gets its note: the note of index
    [i] has id [base + i] ([base] being the counter before the call), the
    numbered title and content, tags [sample; demo] for an even [i] and
    [notes] for an odd one, and both timestamps equal to that reading; it
    is stored under its id, and no other id is touched.  From a store
    whose keys were handed out by the counter, these [count] notes are
    added after the notes already there, so exactly [count] notes are
    created. *)
Theorem seed_creates_count (lower : string -> string)
    (self : InMemoryNoteStore) (count : Z) (clock : Z -> datetime) :
  1 <= count ->
  fst (seed self count clock) = count /\
  snd (seed self count clock) =
    snd (run lower self
           (map (fun i => Create (seed_payload i) (clock i)) (PyList.range count))) /\
  length (PyList.range count) = Z.to_nat count /\
  _next_id (snd (seed self count clock)) = _next_id self + count /\
  (forall i, 0 <= i < count ->
     get_note (snd (seed self count clock)) (_next_id self + i)
     = Some (seed_note (_next_id self) clock i)) /\
  (forall k, k < _next_id self \/ _next_id self + count <= k ->
     get_note (snd (seed self count clock)) k = get_note self k) /\
  (forall i, tags (seed_note (_next_id self) clock i) =
             if Z.even i then ["sample"; "demo"] else ["notes"]) /\
  (store_inv self ->
   _notes (snd (seed self count clock)) =
     _notes self ++
     map (fun i => (_next_id self + i, seed_note (_next_id self) clock i))
         (PyList.range count)).
Proof.
  intros Hc. rewrite seed_unfold. cbn [fst snd].
  split_and!.
  - done.
  - apply seed_loop_as_run.
  - apply length_range.
  - rewrite seed_loop_next_id, length_range. lia.
  - intros i Hi. rewrite <- (Z2Nat.id count) by lia. apply seed_loop_get. lia.
  - intros k Hk. apply seed_loop_get_other. rewrite length_range. lia.
  - intros i. cbn. rewrite Zeven_mod.
    destruct (decide (i mod 2 = 0)) as [->|Hne]; [done|].
    by apply Z.eqb_neq in Hne as ->.
  - intros [_ Hk].
    rewrite <- (Z2Nat.id count) by lia. rewrite seed_loop_notes; [done|].
    eapply Forall_impl; [exact Hk|]. cbn. intros; lia.
Qed.

Lemma seed_creates_count_witness :
  fst (seed demo_store 3 (fun i => 50 + i)) = 3 /\
  PyDict.values (_notes (snd (seed demo_store 3 (fun i => 50 + i)))) =
    PyDict.values (_notes demo_store) ++
    [ mkNote 4 "Sample Note 1" "This is a sample note #1." ["sample"; "demo"] 50 50;
      mkNote 5 "Sample Note 2" "This is a sample note #2." ["notes"] 51 51;
      mkNote 6 "Sample Note 3" "This is a sample note #3." ["sample"; "demo"] 52 52 ].
Proof.
  destruct (seed_creates_count PyStr.ascii_lower demo_store 3 (fun i => 50 + i))
    as (H1 & _ & _ & _ & _ & _ & _ & H6); [lia|].
  split; [exact H1|]. rewrite (H6 demo_store_inv). vm_compute. reflexivity.
Defined.

(** ** Stores whose notes are filed under their ids *)

Lemma create_note_keyed self data now :
  notes_keyed self -> notes_keyed (snd (create_note self data now)).
Proof.
  intros [Hwf Hid]. split; cbn.
  - by apply wf_set.
  - by apply Forall_set.
Qed.

Lemma seed_loop_keyed clock l self :
  notes_keyed self -> notes_keyed (seed_loop clock l self).
Proof.
  unfold seed_loop. revert self.
  induction l as [|i l IH]; intros self H; cbn [fold_left]; [done|].
  apply IH. by apply create_note_keyed.
Qed.

Lemma update_note_keyed self note_id patch now :
  notes_keyed self -> notes_keyed (snd (update_note self note_id patch now)).
Proof.
  intros [Hwf Hid]. unfold update_note.
  destruct (PyDict.get note_id (_notes self)) as [existing|] eqn:E; [|done].
  destruct (updated_fields patch) as [|kv fields] eqn:F; [done|].
  rewrite <- F. split; cbn.
  - by apply wf_set.
  - apply Forall_set; [done|]. cbn.
    destruct (apply_updated_fields patch existing) as (_ & _ & _ & -> & _).
    apply get_Some_elem in E. rewrite Forall_forall in Hid.
    apply (Hid _ E).
Qed.

Lemma delete_note_keyed self note_id :
  notes_keyed self -> notes_keyed (snd (delete_note self note_id)).
Proof.
  intros [Hwf Hid]. unfold delete_note.
  destruct (PyDict.mem _ _); [|done]. split; cbn.
  - by apply wf_del.
  - by apply Forall_del.
Qed.

Lemma step_keyed lower self c :
  notes_keyed self -> notes_keyed (snd (step lower self c)).
Proof.
  intros H.
  destruct c as [data now| note_id | q pg ps | note_id patch now | note_id
                | count clock | ]; cbn [step].
  - by apply create_note_keyed.
  - done.
  - done.
  - pose proof (update_note_keyed self note_id patch now H) as H'.
    by destruct (update_note self note_id patch now).
  - pose proof (delete_note_keyed self note_id H) as H'.
    by destruct (delete_note self note_id).
  - rewrite seed_unfold. cbn [snd]. by apply seed_loop_keyed.
  - split; cbn; constructor.
Qed.

(** Every store reached from the initial one files its notes under their
    ids, each id once. *)
Lemma run_keyed lower cs self :
  notes_keyed self -> notes_keyed (snd (run lower self cs)).
Proof.
  revert self. induction cs as [|c cs IH]; intros self H; simpl; [done|].
  pose proof (step_keyed lower self c H) as Hs.
  destruct (step lower self c) as [r s]. simpl in Hs.
  specialize (IH s Hs). destruct (run lower s cs) as [rs s']. done.
Qed.

Lemma init_keyed : notes_keyed init.
Proof. split; cbn; constructor. Qed.

Lemma keyed_ids (d : PyDict.t Note) :
  Forall (fun kn => id (snd kn) = fst kn) d ->
  map id (PyDict.values d) = PyDict.keys d.
Proof.
  unfold PyDict.values, PyDict.keys.
  induction 1 as [|[k n] d Hk Hd IH]; [done|].
  cbn [map fst snd] in *. by rewrite Hk, IH.
Qed.

Lemma keyed_values_NoDup self :
  notes_keyed self -> NoDup (PyDict.values (_notes self)).
Proof.
  intros [Hwf Hid]. apply (NoDup_fmap_1 id).
  change (NoDup (map id (PyDict.values (_notes self)))).
  by rewrite keyed_ids.
Qed.

(** ** Listing, pagination and search *)

Section Listing.
Variable lower : string -> string.

Lemma list_notes_total self q pg ps :
  total (list_notes lower self q pg ps) = Z.of_nat (length (filtered lower self q)).
Proof. reflexivity. Qed.

Lemma list_notes_items self q pg ps :
  items (list_notes lower self q pg ps) =
  PyList.slice (filtered lower self q) ((pg - 1) * ps) ((pg - 1) * ps + ps).
Proof. reflexivity. Qed.

(** Page [k + 1] is the [k]-th chunk of [ps] notes. *)
Lemma list_notes_chunk self q (k : nat) ps :
  1 <= ps ->
  items (list_notes lower self q (Z.of_nat k + 1) ps) =
  take (Z.to_nat ps) (drop (k * Z.to_nat ps) (filtered lower self q)).
Proof.
  intros Hps. rewrite list_notes_items.
  replace (Z.of_nat k + 1 - 1) with (Z.of_nat k) by lia.
  rewrite slice_nonneg by lia. do 2 f_equal. lia.
Qed.

Lemma pages_concat self q ps :
  1 <= ps ->
  concat (map (fun p => items (list_notes lower self q p ps))
              (page_numbers (Z.of_nat (length (filtered lower self q))) ps))
  = filtered lower self q.
Proof.
  intros Hps. unfold page_numbers, PyList.range. rewrite !map_map.
  rewrite (map_ext _ (fun k => take (Z.to_nat ps)
                        (drop (k * Z.to_nat ps) (filtered lower self q)))).
  2:{ intros k. by apply list_notes_chunk. }
  rewrite concat_chunks. apply take_ge.
  pose proof (ceil_div_bounds (Z.of_nat (length (filtered lower self q))) ps
                ltac:(lia)) as [_ Hub].
  nia.
Qed.

Lemma page_numbers_ge_1 t ps p : p ∈ page_numbers t ps -> 1 <= p.
Proof.
  unfold page_numbers. rewrite list_elem_of_fmap.
  intros (k & -> & Hk%elem_of_range). lia.
Qed.

(** A note that passes the filter is on one of the pages. *)
Lemma filtered_on_some_page self q ps n :
  1 <= ps -> n ∈ filtered lower self q ->
  exists pg, 1 <= pg /\ n ∈ items (list_notes lower self q pg ps).
Proof.
  intros Hps Hn. rewrite <- (pages_concat self q ps Hps) in Hn.
  apply list_elem_of_In, in_concat in Hn as (l & Hl & Hin).
  apply in_map_iff in Hl as (pg & <- & Hpg).
  exists pg. split.
  - eapply page_numbers_ge_1. apply list_elem_of_In, Hpg.
  - by apply list_elem_of_In.
Qed.

Lemma matches_spec q n :
  matches lower (lower q) n = true <->
  lowered_contains lower q (title n) \/ lowered_contains lower q (content n).
Proof.
  unfold matches, lowered_contains.
  by rewrite orb_true_iff, !PyStrFacts.contains_spec.
Qed.

Lemma filtered_nonempty_query self q :
  q <> "" ->
  filtered lower self (Some q) =
  List.filter (matches lower (lower q)) (PyDict.values (_notes self)).
Proof.
  intros Hq. unfold filtered. destruct q; [done | reflexivity].
Qed.

Lemma filtered_NoDup self q :
  notes_keyed self -> NoDup (filtered lower self q).
Proof.
  intros H%keyed_values_NoDup. unfold filtered.
  destruct q as [q|]; [|done]. destruct (PyStr.truthy q); [|done].
  apply NoDup_ListNoDup, List.NoDup_filter. by apply NoDup_ListNoDup.
Qed.
End Listing.

(** C5. For a page size between 1 and 100, the pages
    [1 .. ceil(total / page_size)] of a listing, put one after the other,
    are the filtered list of notes itself: every matching note at its
    place, none left out, none repeated (in a store that files each note
    once under its id, as every reachable store does, no note occurs twice
    in them); and the total reported by a call, whatever the page, is the
    number of notes that pass the filter. *)
Theorem pagination_complete (lower : string -> string)
    (self : InMemoryNoteStore) (q : option string) (page_size : Z) :
  1 <= page_size <= 100 ->
  concat (map (fun p => items (list_notes lower self q p page_size))
              (page_numbers (total (list_notes lower self q 1 page_size)) page_size))
    = filtered lower self q /\
  (forall p, total (list_notes lower self q p page_size)
             = Z.of_nat (length (filtered lower self q))) /\
  (notes_keyed self ->
   NoDup (concat (map (fun p => items (list_notes lower self q p page_size))
                      (page_numbers (total (list_notes lower self q 1 page_size))
                                    page_size)))).
Proof.
  intros [Hps _]. rewrite list_notes_total, pages_concat by done.
  split_and!.
  - done.
  - intros p. apply list_notes_total.
  - apply filtered_NoDup.
Qed.

Lemma demo_store_keyed : notes_keyed demo_store.
Proof.
  split.
  - apply (bool_decide_unpack _). vm_compute. reflexivity.
  - repeat constructor.
Defined.

Lemma pagination_complete_witness :
  concat (map (fun p => items (list_notes PyStr.ascii_lower
                                 (snd (seed demo_store 5 (fun i => i))) (Some "NOTE") p 2))
              [1; 2; 3])
  = filtered PyStr.ascii_lower (snd (seed demo_store 5 (fun i => i))) (Some "NOTE") /\
  NoDup (concat (map (fun p => items (list_notes PyStr.ascii_lower
                                 (snd (seed demo_store 5 (fun i => i))) (Some "NOTE") p 2))
              [1; 2; 3])).
Proof.
  destruct (pagination_complete PyStr.ascii_lower
              (snd (seed demo_store 5 (fun i => i))) (Some "NOTE") 2)
    as (H & _ & Hnd); [lia|].
  split; [exact H|]. apply Hnd.
  rewrite seed_unfold. apply seed_loop_keyed, demo_store_keyed.
Defined.

Example pagination_demo :
  map (fun p => map id (items (list_notes PyStr.ascii_lower
                                 (snd (seed demo_store 5 (fun i => i))) (Some "NOTE") p 2)))
      [1; 2; 3; 4]
  = [[4; 5]; [6; 7]; [8]; []].
Proof. vm_compute. reflexivity. Qed.

(** ASCII case folding goes letter by letter. *)
Lemma ascii_lower_app a b :
  PyStr.ascii_lower (a +:+ b) = PyStr.ascii_lower a +:+ PyStr.ascii_lower b.
Proof.
  induction a as [|c a IH]; [done|].
  change (String c a +:+ b) with (String c (a +:+ b)).
  simpl. rewrite IH. reflexivity.
Qed.

Lemma ascii_lower_split s a b :
  PyStr.ascii_lower s = a +:+ b ->
  exists s1 s2, s = s1 +:+ s2 /\ PyStr.ascii_lower s1 = a /\ PyStr.ascii_lower s2 = b.
Proof.
  revert s. induction a as [|c a IH]; intros s H; cbn in H.
  - by exists "", s.
  - destruct s as [|c' s]; cbn in H; [discriminate H|].
    injection H as Hc H. destruct (IH s H) as (s1 & s2 & -> & H1 & H2).
    exists (String c' s1), s2. cbn. by rewrite Hc, H1.
Qed.

(** On ASCII case folding the test of the code is containment up to
    case. *)
Lemma ascii_contains_ci q s :
  PyStr.contains (PyStr.ascii_lower q) (PyStr.ascii_lower s) = true <->
  ci_substring PyStr.ascii_lower q s.
Proof.
  rewrite PyStrFacts.contains_spec. unfold ci_substring. split.
  - intros (pre' & post' & H).
    apply ascii_lower_split in H as (pre & rest & -> & _ & H).
    apply ascii_lower_split in H as (u & post & -> & Hu & _).
    by exists pre, u, post.
  - intros (pre & u & post & -> & Hu).
    exists (PyStr.ascii_lower pre), (PyStr.ascii_lower post).
    by rewrite !ascii_lower_app, Hu.
Qed.

(** C6, as the code has it.  With a non-empty query [q], [list_notes]
    paginates exactly the notes for which [q.lower()] occurs in
    [title.lower()] or in [content.lower()], in the order of the store,
    and reports their number as the total.  Where lower-casing [q], the
    title and the content only folds the ASCII letters (ASCII text), these
    are exactly the notes whose title or content contains [q] as a
    case-insensitive substring.  In particular (lower-casing
    [Hello World], [hello] and [WORLD] the way [str.lower] does) a stored
    note titled [Hello World] passes the filter for [hello] and for
    [WORLD], and is on one of the pages of the listing. *)
Theorem list_notes_search (lower : string -> string) :
  (forall self q pg ps, q <> "" ->
     exists keep : Note -> bool,
       (forall n, keep n = true <->
          lowered_contains lower q (title n) \/ lowered_contains lower q (content n)) /\
       filtered lower self (Some q) = List.filter keep (PyDict.values (_notes self)) /\
       items (list_notes lower self (Some q) pg ps) =
         PyList.slice (List.filter keep (PyDict.values (_notes self)))
                      ((pg - 1) * ps) ((pg - 1) * ps + ps) /\
       total (list_notes lower self (Some q) pg ps) =
         Z.of_nat (length (List.filter keep (PyDict.values (_notes self))))) /\
  (forall self q n, q <> "" ->
     n ∈ PyDict.values (_notes self) ->
     lower q = PyStr.ascii_lower q ->
     lower (title n) = PyStr.ascii_lower (title n) ->
     lower (content n) = PyStr.ascii_lower (content n) ->
     (n ∈ filtered lower self (Some q) <->
      ci_substring PyStr.ascii_lower q (title n) \/
      ci_substring PyStr.ascii_lower q (content n))) /\
  (lower "Hello World" = "hello world" ->
   lower "hello" = "hello" ->
   lower "WORLD" = "world" ->
   forall self n q ps,
     n ∈ PyDict.values (_notes self) -> title n = "Hello World" ->
     q = "hello" \/ q = "WORLD" -> 1 <= ps ->
     n ∈ filtered lower self (Some q) /\
     exists pg, 1 <= pg /\ n ∈ items (list_notes lower self (Some q) pg ps)).
Proof.
  split_and!.
  - intros self q pg ps Hq. exists (matches lower (lower q)).
    split; [intros n; apply matches_spec|].
    rewrite list_notes_items, list_notes_total.
    by rewrite (filtered_nonempty_query lower self q Hq).
  - intros self q n Hq Hn Hlq Hlt Hlc.
    rewrite (filtered_nonempty_query lower self q Hq).
    rewrite list_elem_of_In, filter_In, <- list_elem_of_In.
    unfold matches. rewrite orb_true_iff, Hlq, Hlt, Hlc, !ascii_contains_ci.
    tauto.
  - intros HHW Hh HW self n q ps Hn Ht Hq Hps.
    assert (n ∈ filtered lower self (Some q)) as Hf.
    { rewrite filtered_nonempty_query by (destruct Hq as [-> | ->]; done).
      apply list_elem_of_In, filter_In. split; [by apply list_elem_of_In|].
      apply matches_spec. left. unfold lowered_contains. rewrite Ht, HHW.
      destruct Hq as [-> | ->].
      - rewrite Hh. by exists "", " world".
      - rewrite HW. by exists "hello ", "". }
    split; [done|]. by apply filtered_on_some_page.
Qed.

Lemma list_notes_search_witness :
  mkNote 1 "Hello World" "first" ["a"; "b"] 10 10
    ∈ items (list_notes PyStr.ascii_lower demo_store (Some "hello") 1 10) /\
  mkNote 1 "Hello World" "first" ["a"; "b"] 10 10
    ∈ filtered PyStr.ascii_lower demo_store (Some "WORLD") /\
  total (list_notes PyStr.ascii_lower demo_store (Some "eggs") 1 10) = 1 /\
  (mkNote 3 "groceries" "Milk, eggs" [] 12 15
     ∈ filtered PyStr.ascii_lower demo_store (Some "MILK") <->
   ci_substring PyStr.ascii_lower "MILK" "groceries" \/
   ci_substring PyStr.ascii_lower "MILK" "Milk, eggs").
Proof.
  destruct (list_notes_search PyStr.ascii_lower) as (Hgen & Hascii & Hex).
  split_and!.
  - vm_compute. apply list_elem_of_here.
  - apply (Hex eq_refl eq_refl eq_refl demo_store _ "WORLD" 10).
    + apply list_elem_of_here.
    + reflexivity.
    + by right.
    + lia.
  - destruct (Hgen demo_store "eggs" 1 10) as (keep & _ & _ & _ & _); [discriminate|].
    reflexivity.
  - apply (Hascii demo_store "MILK" (mkNote 3 "groceries" "Milk, eggs" [] 12 15)).
    + discriminate.
    + apply list_elem_of_further, list_elem_of_here.
    + reflexivity.
    + reflexivity.
    + reflexivity.
Defined.

(** C6, as the spec words it, fails.  The note titled [ΟΔΟΣ] contains the
    query [Σ] as it stands, hence also as a case-insensitive substring,
    yet the search for [Σ] returns no note: [str.lower] turns the sigma
    at the end of the title into the final small sigma and the sigma of
    the query into the ordinary one. *)
Lemma list_notes_search_counterexample :
  PyStr.contains "Σ" "ΟΔΟΣ" = true /\
  ci_substring lower_sample "Σ" "ΟΔΟΣ" /\
  PyDict.values (_notes sigma_store) = [mkNote 1 "ΟΔΟΣ" "x" [] 0 0] /\
  items (list_notes lower_sample sigma_store (Some "Σ") 1 10) = [] /\
  total (list_notes lower_sample sigma_store (Some "Σ") 1 10) = 0 /\
  ~ (forall n, n ∈ PyDict.values (_notes sigma_store) ->
       (n ∈ filtered lower_sample sigma_store (Some "Σ") <->
        ci_substring lower_sample "Σ" (title n) \/
        ci_substring lower_sample "Σ" (content n))).
Proof.
  assert (ci_substring lower_sample "Σ" "ΟΔΟΣ") as Hci by (by exists "ΟΔΟ", "Σ", "").
  split_and!; try (vm_compute; reflexivity); [done|].
  intros H.
  specialize (H (mkNote 1 "ΟΔΟΣ" "x" [] 0 0) ltac:(apply list_elem_of_here)).
  destruct H as [_ H]. specialize (H (or_introl Hci)).
  vm_compute in H. by apply elem_of_nil in H.
Qed.

(** * Further properties of the store and of the routes *)

(** ** Missing ids and empty loops *)

Lemma update_note_missing self note_id patch now :
  get_note self note_id = None -> update_note self note_id patch now = (None, self).
Proof. unfold get_note, update_note. by intros ->. Qed.

(** X1. [update_note] on an id that is not stored returns [None] and
    leaves the store as it is; and whatever the id and the patch, an
    update neither adds nor removes a key, nor moves the id counter. *)
Theorem update_note_absent (self : InMemoryNoteStore) (note_id : Z)
    (patch : NoteUpdate) (now : datetime) :
  (get_note self note_id = None ->
   update_note self note_id patch now = (None, self)) /\
  PyDict.keys (_notes (snd (update_note self note_id patch now)))
    = PyDict.keys (_notes self) /\
  _next_id (snd (update_note self note_id patch now)) = _next_id self.
Proof.
  split_and!.
  - apply update_note_missing.
  - apply update_note_keys.
  - apply update_note_next_id.
Qed.

Lemma update_note_absent_witness :
  update_note demo_store 2 (mkNoteUpdate (Some "X") None None) 99 = (None, demo_store).
Proof.
  destruct (update_note_absent demo_store 2 (mkNoteUpdate (Some "X") None None) 99)
    as [H _].
  apply H. reflexivity.
Defined.

(** X2. [seed] with a count of zero or less runs its loop no time: it
    creates nothing, leaves the store as it is and still returns the
    count it was given. *)
Theorem seed_nonpositive (self : InMemoryNoteStore) (count : Z)
    (clock : Z -> datetime) :
  count <= 0 -> seed self count clock = (count, self).
Proof.
  intros H. rewrite seed_unfold, range_nonpos by done. reflexivity.
Qed.

Lemma seed_nonpositive_witness :
  seed demo_store (-3) (fun i => i) = (-3, demo_store).
Proof. apply seed_nonpositive. lia. Defined.

(** ** Creating and deleting *)

Lemma inv_next_id_fresh self :
  store_inv self -> PyDict.get (_next_id self) (_notes self) = None.
Proof.
  intros [_ Hk]. apply get_None_keys. intros Hin.
  rewrite Forall_forall in Hk. specialize (Hk _ Hin). lia.
Qed.

Lemma del_app_fresh {V} (d : PyDict.t V) k v :
  PyDict.get k d = None -> PyDict.del k (d ++ [(k, v)]) = d.
Proof.
  induction d as [|[k0 v0] d IH]; simpl.
  - intros _. by rewrite decide_True.
  - destruct (decide (k = k0)); [done|]. intros H. f_equal. by apply IH.
Qed.

(** X3. In a store whose keys were handed out by the counter, a created
    note goes to the end of the notes, after those already there, so the
    store holds one note more. *)
Theorem create_note_appends (self : InMemoryNoteStore) (data : NoteCreate)
    (now : datetime) :
  store_inv self ->
  PyDict.values (_notes (snd (create_note self data now)))
    = PyDict.values (_notes self) ++ [fst (create_note self data now)] /\
  length (PyDict.values (_notes (snd (create_note self data now))))
    = S (length (PyDict.values (_notes self))).
Proof.
  intros Hinv. cbn [create_note fst snd _notes].
  rewrite set_absent by (by apply inv_next_id_fresh).
  unfold PyDict.values. rewrite map_app, length_app. cbn. split; [done | lia].
Qed.

Lemma create_note_appends_witness :
  PyDict.values (_notes (snd (create_note demo_store (mkNoteCreate "t" "c" None) 20)))
  = PyDict.values (_notes demo_store) ++ [mkNote 4 "t" "c" [] 20 20].
Proof.
  destruct (create_note_appends demo_store (mkNoteCreate "t" "c" None) 20
              demo_store_inv) as [H _].
  exact H.
Defined.

(** X4. In such a store, deleting the note that was just created
    succeeds and gives back the notes as they were before the create;
    only the id counter stays advanced, so the id is not handed out
    again. *)
Theorem create_then_delete (self : InMemoryNoteStore) (data : NoteCreate)
    (now : datetime) :
  store_inv self ->
  delete_note (snd (create_note self data now)) (id (fst (create_note self data now)))
  = (true, {| _notes := _notes self; _next_id := _next_id self + 1 |}).
Proof.
  intros Hinv. pose proof (inv_next_id_fresh self Hinv) as Hfresh.
  unfold delete_note. cbn [create_note fst snd _notes _next_id id].
  unfold PyDict.mem. rewrite get_set_eq.
  rewrite set_absent by done. by rewrite del_app_fresh.
Qed.

Lemma create_then_delete_witness :
  delete_note (snd (create_note demo_store (mkNoteCreate "t" "c" None) 20)) 4
  = (true, {| _notes := _notes demo_store; _next_id := 5 |}).
Proof.
  apply (create_then_delete demo_store (mkNoteCreate "t" "c" None) 20 demo_store_inv).
Defined.

Lemma delete_note_state self note_id :
  snd (delete_note self note_id)
  = {| _notes := PyDict.del note_id (_notes self); _next_id := _next_id self |}.
Proof.
  unfold delete_note, PyDict.mem.
  destruct (PyDict.get note_id (_notes self)) eqn:E; cbn; [done|].
  rewrite del_absent by done. by destruct self.
Qed.

Lemma values_del_keyed (d : PyDict.t Note) k :
  Forall (fun kn => id (snd kn) = fst kn) d ->
  PyDict.values (PyDict.del k d)
  = List.filter (fun n => negb (Z.eqb k (id n))) (PyDict.values d).
Proof.
  unfold PyDict.values.
  induction 1 as [|[k0 n0] d Hk Hd IH]; [done|].
  cbn [PyDict.del map snd fst List.filter] in *. rewrite Hk.
  destruct (decide (k = k0)) as [->|Hne].
  - by rewrite Z.eqb_refl.
  - apply Z.eqb_neq in Hne. rewrite Hne. cbn. by rewrite IH.
Qed.

Lemma length_del_present {V} (d : PyDict.t V) k :
  PyDict.wf d -> is_Some (PyDict.get k d) ->
  S (length (PyDict.del k d)) = length d.
Proof.
  unfold PyDict.wf, PyDict.keys.
  induction d as [|[k0 v0] d IH]; simpl; intros Hwf Hget.
  - by destruct Hget.
  - apply NoDup_cons in Hwf as [Hnotin Hwf].
    destruct (decide (k = k0)) as [->|Hne].
    + rewrite del_absent; [done|]. by apply get_None_keys.
    + simpl. f_equal. by apply IH.
Qed.

(** X5. In a store that files every note once, under its own id,
    [delete_note] leaves exactly the notes whose id is not the deleted
    one, in their order; when the id was stored, the store holds one
    note less. *)
Theorem delete_note_removes_one (self : InMemoryNoteStore) (note_id : Z) :
  notes_keyed self ->
  PyDict.values (_notes (snd (delete_note self note_id)))
    = List.filter (fun n => negb (Z.eqb note_id (id n))) (PyDict.values (_notes self)) /\
  (is_Some (get_note self note_id) ->
   S (length (PyDict.values (_notes (snd (delete_note self note_id)))))
     = length (PyDict.values (_notes self))).
Proof.
  intros [Hwf Hid]. rewrite delete_note_state. cbn [_notes]. split.
  - by apply values_del_keyed.
  - intros Hget. unfold PyDict.values. rewrite !length_map.
    by apply length_del_present.
Qed.

Lemma delete_note_removes_one_witness :
  PyDict.values (_notes (snd (delete_note demo_store 1)))
    = [mkNote 3 "groceries" "Milk, eggs" [] 12 15] /\
  S (length (PyDict.values (_notes (snd (delete_note demo_store 1))))) = 2%nat.
Proof.
  destruct (delete_note_removes_one demo_store 1 demo_store_keyed) as [H1 H2].
  split.
  - rewrite H1. reflexivity.
  - apply H2. by eexists.
Defined.

(** ** Pages *)

Lemma slice_sublist {A} (l : list A) start stop :
  PyList.slice l start stop `sublist_of` l.
Proof.
  unfold PyList.slice. etrans; [apply sublist_take | apply sublist_drop].
Qed.

Lemma filter_sublist {A} (f : A -> bool) (l : list A) :
  List.filter f l `sublist_of` l.
Proof.
  induction l as [|x l IH]; cbn; [constructor|].
  destruct (f x); by constructor.
Qed.

Lemma filtered_sublist lower self q :
  filtered lower self q `sublist_of` PyDict.values (_notes self).
Proof.
  unfold filtered. destruct q as [q|]; [|done].
  destruct (PyStr.truthy q); [apply filter_sublist | done].
Qed.

Lemma items_sublist lower self q pg ps :
  items (list_notes lower self q pg ps) `sublist_of` PyDict.values (_notes self).
Proof.
  rewrite list_notes_items. etrans; [apply slice_sublist | apply filtered_sublist].
Qed.

(** X6. Whatever the query, the page number and the page size (also
    zero or negative ones), the items of a listing are stored notes, each
    taken at most once and in the order of the store; the reported total
    is at most the number of stored notes. *)
Theorem list_notes_items_sublist (lower : string -> string)
    (self : InMemoryNoteStore) (q : option string) (pg ps : Z) :
  items (list_notes lower self q pg ps) `sublist_of` PyDict.values (_notes self) /\
  total (list_notes lower self q pg ps)
    <= Z.of_nat (length (PyDict.values (_notes self))).
Proof.
  split; [apply items_sublist|].
  rewrite list_notes_total. apply inj_le, sublist_length, filtered_sublist.
Qed.

(** X7. For a page number and a page size of at least 1, the [i]-th item
    of page [pg] is the filtered note of index [(pg - 1) * ps + i], for
    every [i] below the page size: pages are consecutive blocks of the
    filtered list. *)
Theorem list_notes_page_lookup (lower : string -> string)
    (self : InMemoryNoteStore) (q : option string) (pg ps : Z) (i : nat) :
  1 <= pg -> 1 <= ps -> Z.of_nat i < ps ->
  items (list_notes lower self q pg ps) !! i
  = filtered lower self q !! (Z.to_nat ((pg - 1) * ps) + i)%nat.
Proof.
  intros Hpg Hps Hi. rewrite list_notes_items, slice_nonneg by nia.
  rewrite lookup_take_lt by lia. apply lookup_drop.
Qed.

Lemma list_notes_page_lookup_witness :
  items (list_notes PyStr.ascii_lower (snd (seed demo_store 5 (fun i => i)))
           None 2 3) !! 1%nat
  = Some (mkNote 6 "Sample Note 3" "This is a sample note #3." ["sample"; "demo"] 2 2).
Proof.
  rewrite (list_notes_page_lookup PyStr.ascii_lower
             (snd (seed demo_store 5 (fun i => i))) None 2 3 1) by lia.
  vm_compute. reflexivity.
Defined.

(** X8. For a page number and a page size of at least 1, a page holds
    the notes that are left from its start index on, up to the page
    size: never more than the page size, and none once the start index
    has reached the total. *)
Theorem list_notes_items_length (lower : string -> string)
    (self : InMemoryNoteStore) (q : option string) (pg ps : Z) :
  1 <= pg -> 1 <= ps ->
  Z.of_nat (length (items (list_notes lower self q pg ps)))
    = Z.max 0 (Z.min ps (total (list_notes lower self q pg ps) - (pg - 1) * ps)) /\
  Z.of_nat (length (items (list_notes lower self q pg ps))) <= ps /\
  (total (list_notes lower self q pg ps) <= (pg - 1) * ps ->
   items (list_notes lower self q pg ps) = []).
Proof.
  intros Hpg Hps. rewrite list_notes_total, list_notes_items, slice_nonneg by nia.
  assert (0 <= (pg - 1) * ps) as Hstart by nia.
  split_and!.
  - rewrite length_take, length_drop. lia.
  - rewrite length_take. lia.
  - intros Htot. rewrite drop_ge by lia. by rewrite take_nil.
Qed.

Lemma list_notes_items_length_witness :
  length (items (list_notes PyStr.ascii_lower (snd (seed demo_store 5 (fun i => i)))
                   None 3 3)) = 1%nat /\
  items (list_notes PyStr.ascii_lower (snd (seed demo_store 5 (fun i => i)))
           None 4 3) = [].
Proof.
  destruct (list_notes_items_length PyStr.ascii_lower
              (snd (seed demo_store 5 (fun i => i))) None 3 3) as (H1 & _ & _);
    [lia | lia |].
  destruct (list_notes_items_length PyStr.ascii_lower
              (snd (seed demo_store 5 (fun i => i))) None 4 3) as (_ & _ & H3);
    [lia | lia |].
  split.
  - apply Nat2Z.inj. rewrite H1. vm_compute. reflexivity.
  - apply H3. vm_compute. discriminate.
Defined.

(** X9. Page number 0, which the route refuses but the store accepts,
    has no items, whatever the query and the page size: its slice stops
    at index 0. *)
Theorem list_notes_page_zero (lower : string -> string)
    (self : InMemoryNoteStore) (q : option string) (ps : Z) :
  items (list_notes lower self q 0 ps) = [] /\
  total (list_notes lower self q 0 ps) = Z.of_nat (length (filtered lower self q)).
Proof.
  split; [|apply list_notes_total].
  rewrite list_notes_items. unfold PyList.slice.
  replace ((0 - 1) * ps + ps) with 0 by lia.
  set (len := Z.of_nat (length (filtered lower self q))).
  assert (PyList.clamp len 0 = 0) as ->.
  { unfold PyList.clamp. cbn. lia. }
  assert (0 <= PyList.clamp len ((0 - 1) * ps)) as Hlo.
  { unfold PyList.clamp. destruct (_ <? 0) eqn:E; [lia|].
    apply Z.ltb_ge in E. lia. }
  by replace (Z.to_nat (0 - PyList.clamp len ((0 - 1) * ps))) with 0%nat by lia.
Qed.

(** ** What every reachable store satisfies *)

(** X10. Every operation keeps each note filed once, under its own id.
    So in any store reached from the initial one, [get_note] at an id
    returns a note with that very id, and no two stored notes share an
    id. *)
Theorem stored_under_own_id (lower : string -> string) :
  (forall self c, notes_keyed self -> notes_keyed (snd (step lower self c))) /\
  (forall cs k n, get_note (snd (run lower init cs)) k = Some n -> id n = k) /\
  (forall cs, NoDup (map id (PyDict.values (_notes (snd (run lower init cs)))))).
Proof.
  split_and!.
  - apply step_keyed.
  - intros cs k n Hget.
    destruct (run_keyed lower cs init init_keyed) as [_ Hid].
    apply get_Some_elem in Hget. rewrite Forall_forall in Hid.
    apply (Hid _ Hget).
  - intros cs. destruct (run_keyed lower cs init init_keyed) as [Hwf Hid].
    by rewrite keyed_ids.
Qed.

Lemma stored_under_own_id_witness :
  notes_keyed (snd (step PyStr.ascii_lower demo_store
                      (Update 3 (mkNoteUpdate None (Some "Bread") None) 30))).
Proof.
  destruct (stored_under_own_id PyStr.ascii_lower) as [Hstep _].
  apply Hstep, demo_store_keyed.
Defined.

Lemma Forall_sublist {A} (P : A -> Prop) (l1 l2 : list A) :
  l1 `sublist_of` l2 -> Forall P l2 -> Forall P l1.
Proof.
  induction 1 as [|x l1 l2 Hs IH|x l1 l2 Hs IH]; intros H.
  - done.
  - apply Forall_cons in H as [Hx H]. constructor; [done | by apply IH].
  - apply Forall_cons in H as [_ H]. by apply IH.
Qed.

Lemma StronglySorted_sublist {A} (R : A -> A -> Prop) (l1 l2 : list A) :
  l1 `sublist_of` l2 -> StronglySorted R l2 -> StronglySorted R l1.
Proof.
  induction 1 as [|x l1 l2 Hs IH|x l1 l2 Hs IH]; intros H.
  - constructor.
  - inversion H as [|? ? Hl2 Hx]; subst. constructor; [by apply IH|].
    by apply (Forall_sublist _ l1 l2).
  - inversion H; subst. by apply IH.
Qed.

Lemma StronglySorted_snoc (l : list Z) x :
  StronglySorted Z.lt l -> Forall (fun k => k < x) l ->
  StronglySorted Z.lt (l ++ [x]).
Proof.
  induction 1 as [|a l Hs IH Ha]; intros Hx; cbn.
  - repeat constructor.
  - apply Forall_cons in Hx as [Hax Hx]. constructor; [by apply IH|].
    apply Forall_app. split; [done | by repeat constructor].
Qed.

Lemma create_note_ascending self data now :
  store_inv self -> keys_ascending self ->
  keys_ascending (snd (create_note self data now)).
Proof.
  intros Hinv Hs. unfold keys_ascending. cbn [create_note snd _notes].
  rewrite keys_set. unfold PyDict.mem. rewrite inv_next_id_fresh by done.
  apply StronglySorted_snoc; [done|].
  destruct Hinv as [_ Hk]. eapply Forall_impl; [exact Hk|]. cbn. intros; lia.
Qed.

Lemma seed_loop_ascending clock l self :
  store_inv self -> keys_ascending self ->
  keys_ascending (seed_loop clock l self).
Proof.
  unfold seed_loop. revert self.
  induction l as [|i l IH]; intros self Hinv Hs; cbn [fold_left]; [done|].
  apply IH; [by apply create_note_inv | by apply create_note_ascending].
Qed.

Lemma step_ascending lower self c :
  store_inv self -> keys_ascending self ->
  keys_ascending (snd (step lower self c)).
Proof.
  intros Hinv Hs.
  destruct c as [data now| note_id | q pg ps | note_id patch now | note_id
                | count clock | ]; cbn [step].
  - by apply create_note_ascending.
  - done.
  - done.
  - pose proof (update_note_keys self note_id patch now) as Hk.
    destruct (update_note self note_id patch now) as [r s]. cbn in *.
    unfold keys_ascending. by rewrite Hk.
  - pose proof (delete_note_state self note_id) as Hd.
    destruct (delete_note self note_id) as [b s]. cbn in *. subst s.
    unfold keys_ascending. cbn [_notes]. rewrite keys_del.
    eapply StronglySorted_sublist; [apply filter_sublist | done].
  - rewrite seed_unfold. cbn [snd]. by apply seed_loop_ascending.
  - constructor.
Qed.

Lemma run_ascending lower cs self :
  store_inv self -> keys_ascending self ->
  keys_ascending (snd (run lower self cs)).
Proof.
  revert self. induction cs as [|c cs IH]; intros self Hinv Hs; simpl; [done|].
  pose proof (step_inv lower self c Hinv) as Hinv'.
  pose proof (step_ascending lower self c Hinv Hs) as Hs'.
  destruct (step lower self c) as [r s]. simpl in *.
  specialize (IH s Hinv' Hs'). by destruct (run lower s cs).
Qed.

(** X11. In any store reached from the initial one, the notes are kept
    in strictly ascending order of id, and so is every page of every
    listing: a listing is ordered by id, oldest note first. *)
Theorem listing_ascending_ids (lower : string -> string) (cs : list call)
    (q : option string) (pg ps : Z) :
  StronglySorted Z.lt (map id (PyDict.values (_notes (snd (run lower init cs))))) /\
  StronglySorted Z.lt
    (map id (items (list_notes lower (snd (run lower init cs)) q pg ps))).
Proof.
  assert (store_inv init) as Hinit by (split; cbn; [lia | constructor]).
  assert (keys_ascending init) as Hasc by constructor.
  pose proof (run_ascending lower cs init Hinit Hasc) as Hs.
  destruct (run_keyed lower cs init init_keyed) as [_ Hid].
  unfold keys_ascending in Hs. rewrite <- keyed_ids in Hs by done.
  split; [done|].
  eapply StronglySorted_sublist; [|exact Hs].
  apply fmap_sublist, items_sublist.
Qed.

(** X12. In a store whose keys are distinct and were handed out by the
    counter, the number of stored notes is at most the number of ids
    handed out so far, [_next_id - 1]. *)
Theorem note_count_bound (self : InMemoryNoteStore) :
  store_inv self -> PyDict.wf (_notes self) ->
  Z.of_nat (length (PyDict.values (_notes self))) <= _next_id self - 1.
Proof.
  intros [Hn Hk] Hwf. unfold PyDict.values. rewrite length_map.
  rewrite <- (length_map fst). change (map fst (_notes self)) with (PyDict.keys (_notes self)).
  assert (PyDict.keys (_notes self) ⊆+ seqZ 1 (_next_id self - 1)) as Hsub.
  { apply NoDup_submseteq; [done|]. intros k Hin.
    rewrite Forall_forall in Hk. specialize (Hk _ Hin).
    apply elem_of_seqZ. lia. }
  apply submseteq_length in Hsub. rewrite length_seqZ in Hsub. lia.
Qed.

Lemma note_count_bound_witness :
  Z.of_nat (length (PyDict.values (_notes demo_store))) <= 3.
Proof.
  apply (note_count_bound demo_store demo_store_inv).
  destruct demo_store_keyed as [Hwf _]. exact Hwf.
Defined.

(** ** Notes through a call *)

Lemma get_Some_key {V} (d : PyDict.t V) k v :
  PyDict.get k d = Some v -> k ∈ PyDict.keys d.
Proof.
  intros H. destruct (decide (k ∈ PyDict.keys d)) as [|Hn]; [done|].
  apply get_None_keys in Hn. congruence.
Qed.

Lemma update_note_get_other self note_id patch now k :
  k <> note_id ->
  get_note (snd (update_note self note_id patch now)) k = get_note self k.
Proof.
  intros Hk. unfold update_note, get_note.
  destruct (PyDict.get note_id (_notes self)); [|done].
  destruct (updated_fields patch); [done|]. cbn.
  apply get_set_ne. congruence.
Qed.

(** X13. In a store whose keys were handed out by the counter, a stored
    note survives every call except [reset] and its own deletion: it is
    still stored under its id, with the same [id] and [created_at], and
    unless the call is an update of this very note it is the same note
    in every field. *)
Theorem note_persists (lower : string -> string) (self : InMemoryNoteStore)
    (c : call) (k : Z) (n : Note) :
  store_inv self -> get_note self k = Some n ->
  is_reset c = false -> c <> Delete k ->
  exists n',
    get_note (snd (step lower self c)) k = Some n' /\
    id n' = id n /\ created_at n' = created_at n /\
    ((forall patch now, c <> Update k patch now) -> n' = n).
Proof.
  intros Hinv Hget Hreset Hdel.
  destruct c as [data now| note_id | q pg ps | note_id patch now | note_id
                | count clock | ]; cbn [step].
  - exists n. split_and!; try done. unfold get_note in *. cbn.
    rewrite get_set_ne; [done|]. intros Heq.
    rewrite <- Heq, inv_next_id_fresh in Hget by done. done.
  - by exists n.
  - by exists n.
  - destruct (decide (note_id = k)) as [->|Hne].
    + destruct (updated_fields patch) as [|kv fields] eqn:F.
      * exists n. unfold update_note. unfold get_note in Hget. rewrite Hget, F.
        cbn. done.
      * assert (updated_fields patch <> []) as Hnil by (by rewrite F).
        pose proof (update_note_present self k patch now n Hget Hnil) as Hupd.
        destruct (update_note self k patch now) as [r s].
        injection Hupd as -> ->. cbn [snd].
        destruct (apply_updated_fields patch n) as (_ & _ & _ & Hi & Hc & _).
        eexists. unfold get_note. cbn [_notes]. rewrite get_set_eq.
        split_and!; [done | done | done |].
        intros Hc'. by destruct (Hc' patch now).
    + pose proof (update_note_get_other self note_id patch now k ltac:(done)) as Ho.
      destruct (update_note self note_id patch now) as [r s]. cbn in *.
      exists n. by rewrite Ho.
  - pose proof (delete_note_state self note_id) as Hd.
    destruct (delete_note self note_id) as [b s]. cbn in *. subst s.
    exists n. unfold get_note in *. cbn. rewrite get_del_ne; [done|].
    intros ->. done.
  - rewrite seed_unfold. cbn [snd]. exists n.
    rewrite seed_loop_get_other; [done|]. left.
    destruct Hinv as [_ Hk]. rewrite Forall_forall in Hk.
    unfold get_note in Hget. apply get_Some_key in Hget. apply Hk in Hget. lia.
  - done.
Qed.

Lemma note_persists_witness :
  exists n',
    get_note (snd (step PyStr.ascii_lower demo_store
                     (Update 3 (mkNoteUpdate None (Some "Bread") None) 30))) 3 = Some n' /\
    id n' = 3 /\ created_at n' = 12.
Proof.
  destruct (note_persists PyStr.ascii_lower demo_store
              (Update 3 (mkNoteUpdate None (Some "Bread") None) 30) 3
              (mkNote 3 "groceries" "Milk, eggs" [] 12 15))
    as (n' & H1 & H2 & H3 & _).
  - exact demo_store_inv.
  - reflexivity.
  - reflexivity.
  - discriminate.
  - exists n'. split_and!; assumption.
Defined.

(** ** Timestamps *)

Lemma stamps_before_weaken t t' self :
  t <= t' -> stamps_before t self -> stamps_before t' self.
Proof.
  intros Ht H. eapply Forall_impl; [exact H|]. cbn. intros; lia.
Qed.

Lemma Forall_values_set (P : Note -> Prop) (d : PyDict.t Note) k v :
  Forall P (PyDict.values d) -> P v -> Forall P (PyDict.values (PyDict.set k v d)).
Proof.
  unfold PyDict.values. intros Hd Hv.
  induction d as [|[k0 v0] d IH]; cbn.
  - by repeat constructor.
  - cbn in Hd. apply Forall_cons in Hd as [H0 Hd].
    destruct (decide (k = k0)); cbn; constructor; auto.
Qed.

Lemma Forall_values_del (P : Note -> Prop) (d : PyDict.t Note) k :
  Forall P (PyDict.values d) -> Forall P (PyDict.values (PyDict.del k d)).
Proof.
  unfold PyDict.values. intros Hd.
  induction d as [|[k0 v0] d IH]; cbn; [done|].
  cbn in Hd. apply Forall_cons in Hd as [H0 Hd].
  destruct (decide (k = k0)); cbn; [auto | constructor; auto].
Qed.

Lemma create_note_stamps t self data now :
  stamps_before t self -> now <= t ->
  stamps_before t (snd (create_note self data now)).
Proof.
  intros H Hnow. unfold stamps_before. cbn [create_note snd _notes].
  apply Forall_values_set; [done|]. cbn. lia.
Qed.

Lemma seed_loop_stamps t clock l self :
  stamps_before t self -> Forall (fun i => clock i <= t) l ->
  stamps_before t (seed_loop clock l self).
Proof.
  unfold seed_loop. revert self.
  induction l as [|i l IH]; intros self H Hl; cbn [fold_left]; [done|].
  apply Forall_cons in Hl as [Hi Hl].
  apply IH; [|done]. by apply create_note_stamps.
Qed.

(** X14. If the clock does not run backwards, no note is ever stamped as
    updated before it was created: when every stored note has
    [created_at <= updated_at <= t] and the readings of a call lie
    between [t] and [t'], then after the call every stored note has
    [created_at <= updated_at <= t']. *)
Theorem timestamps_ordered (lower : string -> string) (self : InMemoryNoteStore)
    (c : call) (t t' : datetime) :
  stamps_before t self -> t <= t' ->
  Forall (fun r => t <= r <= t') (call_readings c) ->
  stamps_before t' (snd (step lower self c)).
Proof.
  intros H Ht Hr. pose proof (stamps_before_weaken t t' self Ht H) as H'.
  destruct c as [data now| note_id | q pg ps | note_id patch now | note_id
                | count clock | ]; cbn [step call_readings] in *.
  - rewrite Forall_singleton in Hr.
    apply create_note_stamps; [done | lia].
  - done.
  - done.
  - rewrite Forall_singleton in Hr.
    destruct (PyDict.get note_id (_notes self)) as [existing|] eqn:E.
    + destruct (updated_fields patch) as [|kv fields] eqn:F.
      * unfold update_note. rewrite E, F. done.
      * assert (updated_fields patch <> []) as Hnil by (by rewrite F).
        pose proof (update_note_present self note_id patch now existing E Hnil) as Hupd.
        destruct (update_note self note_id patch now) as [r s].
        injection Hupd as -> ->. cbn [snd]. unfold stamps_before. cbn [_notes].
        apply Forall_values_set; [done|].
        destruct (apply_updated_fields patch existing) as (_ & _ & _ & _ & Hc & _).
        cbn in *. rewrite Hc.
        apply get_Some_elem in E.
        unfold stamps_before in H. rewrite Forall_forall in H.
        assert (existing ∈ PyDict.values (_notes self)) as Hin.
        { unfold PyDict.values. apply list_elem_of_fmap. by exists (note_id, existing). }
        specialize (H _ Hin). cbn in H. lia.
    + unfold update_note. rewrite E. done.
  - pose proof (delete_note_state self note_id) as Hd.
    destruct (delete_note self note_id) as [b s]. cbn [snd] in *. subst s.
    unfold stamps_before. cbn [_notes]. by apply Forall_values_del.
  - rewrite seed_unfold. cbn [snd]. apply seed_loop_stamps; [done|].
    rewrite Forall_fmap in Hr. eapply Forall_impl; [exact Hr|]. cbn. intros; lia.
  - constructor.
Qed.

Lemma demo_store_stamps : stamps_before 15 demo_store.
Proof. repeat constructor; cbn; lia. Defined.

Lemma timestamps_ordered_witness :
  stamps_before 30 (snd (step PyStr.ascii_lower demo_store
                           (Update 1 (mkNoteUpdate (Some "X") None None) 20))).
Proof.
  apply (timestamps_ordered PyStr.ascii_lower demo_store _ 15 30 demo_store_stamps).
  - lia.
  - repeat constructor; cbn; lia.
Defined.

(** ** Composing calls *)

Lemma set_set {V} (d : PyDict.t V) k v1 v2 :
  PyDict.set k v2 (PyDict.set k v1 d) = PyDict.set k v2 d.
Proof.
  induction d as [|[k0 v0] d IH]; cbn.
  - by rewrite decide_True.
  - destruct (decide (k = k0)) as [->|Hne]; cbn.
    + by rewrite decide_True.
    + rewrite decide_False by done. by rewrite IH.
Qed.

Lemma merge_patch_empty_l p2 :
  merge_patch {| nu_title := None; nu_content := None; nu_tags := None |} p2 = p2.
Proof. by destruct p2 as [[?|] [?|] [?|]]. Qed.

Lemma setattr_twice p1 p2 existing t1 t2 :
  set_updated_at
    (fold_left setattr (updated_fields p2)
       (set_updated_at (fold_left setattr (updated_fields p1) existing) t1)) t2
  = set_updated_at (fold_left setattr (updated_fields (merge_patch p1 p2)) existing) t2.
Proof. by destruct p1 as [[?|] [?|] [?|]], p2 as [[?|] [?|] [?|]]. Qed.

Lemma merge_patch_fields p1 p2 :
  updated_fields p2 <> [] -> updated_fields (merge_patch p1 p2) <> [].
Proof.
  rewrite !updated_fields_nil. intros H (Ht & Hc & Hg). apply H.
  destruct p1 as [[?|] [?|] [?|]], p2 as [[?|] [?|] [?|]]; cbn in *; done.
Qed.

(** X15. Two updates of the same note, the second with some field in its
    patch, amount to one update at the time of the second, with the two
    patches combined so that a field of the second patch wins: same
    answer, same store. *)
Theorem update_note_twice (self : InMemoryNoteStore) (note_id : Z)
    (p1 p2 : NoteUpdate) (t1 t2 : datetime) :
  nu_title p2 <> None \/ nu_content p2 <> None \/ nu_tags p2 <> None ->
  update_note (snd (update_note self note_id p1 t1)) note_id p2 t2
  = update_note self note_id (merge_patch p1 p2) t2.
Proof.
  intros Hsome.
  assert (updated_fields p2 <> []) as Hne2.
  { rewrite updated_fields_nil. intros (? & ? & ?). tauto. }
  destruct (get_note self note_id) as [existing|] eqn:Hget.
  - destruct (updated_fields p1) as [|kv fields] eqn:F1.
    + assert (update_note self note_id p1 t1 = (Some existing, self)) as ->.
      { unfold update_note. unfold get_note in Hget. by rewrite Hget, F1. }
      apply updated_fields_nil in F1 as (Ht & Hc & Hg).
      cbn [snd]. destruct p1 as [pt pc pg]. cbn in Ht, Hc, Hg. subst.
      by rewrite merge_patch_empty_l.
    + assert (updated_fields p1 <> []) as Hne1 by (by rewrite F1).
      rewrite (update_note_present self note_id p1 t1 existing Hget Hne1). cbn [snd].
      erewrite update_note_present; [| unfold get_note; cbn; apply get_set_eq | done].
      rewrite (update_note_present self note_id (merge_patch p1 p2) t2 existing Hget)
        by (by apply merge_patch_fields).
      cbn [_notes _next_id]. by rewrite set_set, setattr_twice.
  - rewrite (update_note_missing self note_id p1 t1 Hget).
    rewrite (update_note_missing self note_id (merge_patch p1 p2) t2 Hget).
    cbn [snd]. by apply update_note_missing.
Qed.

Lemma update_note_twice_witness :
  update_note (snd (update_note demo_store 1 (mkNoteUpdate (Some "X") (Some "c1") None) 20))
              1 (mkNoteUpdate None (Some "c2") (Some ["t"])) 21
  = update_note demo_store 1 (mkNoteUpdate (Some "X") (Some "c2") (Some ["t"])) 21.
Proof.
  apply (update_note_twice demo_store 1 (mkNoteUpdate (Some "X") (Some "c1") None)
           (mkNoteUpdate None (Some "c2") (Some ["t"])) 20 21).
  right. left. discriminate.
Defined.

Lemma del_del {V} (d : PyDict.t V) a b :
  PyDict.del a (PyDict.del b d) = PyDict.del b (PyDict.del a d).
Proof.
  induction d as [|[k0 v0] d IH]; cbn; [done|].
  destruct (decide (b = k0)) as [->|Hb], (decide (a = k0)) as [->|Ha]; cbn;
    rewrite ?decide_True, ?decide_False by done; by rewrite ?IH.
Qed.

(** X16. Deletions of two different ids do not interfere: each answers
    as it would have alone, and the store reached does not depend on the
    order of the two. *)
Theorem delete_note_commute (self : InMemoryNoteStore) (a b : Z) :
  a <> b ->
  fst (delete_note (snd (delete_note self a)) b) = fst (delete_note self b) /\
  snd (delete_note (snd (delete_note self a)) b)
    = snd (delete_note (snd (delete_note self b)) a).
Proof.
  intros Hab. split.
  - rewrite delete_note_state. unfold delete_note, PyDict.mem. cbn [_notes].
    rewrite get_del_ne by done. by destruct (PyDict.get b (_notes self)).
  - rewrite !delete_note_state. cbn [_notes _next_id]. by rewrite del_del.
Qed.

Lemma delete_note_commute_witness :
  snd (delete_note (snd (delete_note demo_store 1)) 3)
  = snd (delete_note (snd (delete_note demo_store 3)) 1).
Proof.
  destruct (delete_note_commute demo_store 1 3) as [_ H]; [lia | exact H].
Defined.

(** ** Search *)

Lemma startswith_refl s : PyStr.startswith s s = true.
Proof. induction s as [|a s IH]; cbn; [done|]. by rewrite decide_True. Qed.

Lemma contains_refl s : PyStr.contains s s = true.
Proof. destruct s; cbn; [done|]. by rewrite decide_True, startswith_refl. Qed.

(** X17. A stored note is found by searching for its own title and by
    searching for its own content, whatever [str.lower] does: it passes
    the filter, and for a page size of at least 1 it is on one of the
    pages. *)
Theorem search_by_own_text (lower : string -> string)
    (self : InMemoryNoteStore) (n : Note) (ps : Z) :
  n ∈ PyDict.values (_notes self) -> 1 <= ps ->
  (exists pg, 1 <= pg /\ n ∈ items (list_notes lower self (Some (title n)) pg ps)) /\
  (exists pg, 1 <= pg /\ n ∈ items (list_notes lower self (Some (content n)) pg ps)).
Proof.
  intros Hn Hps.
  assert (forall q, q = title n \/ q = content n -> n ∈ filtered lower self (Some q)) as Hf.
  { intros q Hq. unfold filtered. destruct (PyStr.truthy q); [|done].
    apply list_elem_of_In, filter_In. split; [by apply list_elem_of_In|].
    unfold matches. apply orb_true_iff.
    destruct Hq as [-> | ->]; [left | right]; apply contains_refl. }
  split; apply filtered_on_some_page; auto.
Qed.

Lemma search_by_own_text_witness :
  exists pg, 1 <= pg /\
    mkNote 3 "groceries" "Milk, eggs" [] 12 15
      ∈ items (list_notes PyStr.ascii_lower demo_store (Some "Milk, eggs") pg 1).
Proof.
  destruct (search_by_own_text PyStr.ascii_lower demo_store
              (mkNote 3 "groceries" "Milk, eggs" [] 12 15) 1) as [_ H].
  - apply list_elem_of_further, list_elem_of_here.
  - lia.
  - exact H.
Defined.

(** ** Routes *)

(** X18. For an id that is not stored, the get, update and delete routes
    all raise the 404 error with detail [Note not found], and the update
    and delete routes leave the store as it is. *)
Theorem routes_not_found (repo : InMemoryNoteStore) (note_id : Z)
    (patch : NoteUpdate) (now : datetime) :
  get_note repo note_id = None ->
  get_note_endpoint note_id repo = inl (mkHTTPException 404 "Note not found") /\
  update_note_endpoint note_id patch repo now
    = (inl (mkHTTPException 404 "Note not found"), repo) /\
  delete_note_endpoint note_id repo
    = (inl (mkHTTPException 404 "Note not found"), repo).
Proof.
  intros Hget. split_and!.
  - unfold get_note_endpoint. by rewrite Hget.
  - unfold update_note_endpoint. by rewrite update_note_missing.
  - unfold delete_note_endpoint, delete_note, PyDict.mem.
    unfold get_note in Hget. by rewrite Hget.
Qed.

Lemma routes_not_found_witness :
  delete_note_endpoint 7 demo_store
  = (inl (mkHTTPException 404 "Note not found"), demo_store).
Proof.
  destruct (routes_not_found demo_store 7 (mkNoteUpdate None None None) 0)
    as (_ & _ & H); [reflexivity | exact H].
Defined.

(** X19. For a stored id no route raises: the get route returns the
    note; the update route returns a note that the get route returns
    from then on; the delete route returns nothing, and afterwards the
    get route raises the 404 error for this id. *)
Theorem routes_found (repo : InMemoryNoteStore) (note_id : Z) (n : Note)
    (patch : NoteUpdate) (now : datetime) :
  get_note repo note_id = Some n ->
  get_note_endpoint note_id repo = inr n /\
  (exists n', fst (update_note_endpoint note_id patch repo now) = inr n' /\
     get_note_endpoint note_id (snd (update_note_endpoint note_id patch repo now))
       = inr n') /\
  fst (delete_note_endpoint note_id repo) = inr tt /\
  get_note_endpoint note_id (snd (delete_note_endpoint note_id repo))
    = inl (mkHTTPException 404 "Note not found").
Proof.
  intros Hget. split_and!.
  - unfold get_note_endpoint. by rewrite Hget.
  - unfold update_note_endpoint.
    destruct (updated_fields patch) as [|kv fields] eqn:F.
    + assert (update_note repo note_id patch now = (Some n, repo)) as ->.
      { unfold update_note. unfold get_note in Hget. by rewrite Hget, F. }
      exists n. cbn. unfold get_note_endpoint. by rewrite Hget.
    + assert (updated_fields patch <> []) as Hne by (by rewrite F).
      rewrite (update_note_present repo note_id patch now n Hget Hne).
      eexists. split; [reflexivity|]. cbn [snd].
      unfold get_note_endpoint, get_note. cbn [_notes]. by rewrite get_set_eq.
  - unfold delete_note_endpoint, delete_note, PyDict.mem.
    unfold get_note in Hget. by rewrite Hget.
  - unfold delete_note_endpoint, delete_note, PyDict.mem.
    unfold get_note in Hget. rewrite Hget. cbn.
    unfold get_note_endpoint, get_note. cbn. by rewrite get_del_eq.
Qed.

Lemma routes_found_witness :
  get_note_endpoint 3 demo_store = inr (mkNote 3 "groceries" "Milk, eggs" [] 12 15) /\
  get_note_endpoint 3 (snd (delete_note_endpoint 3 demo_store))
    = inl (mkHTTPException 404 "Note not found").
Proof.
  destruct (routes_found demo_store 3 (mkNote 3 "groceries" "Milk, eggs" [] 12 15)
              (mkNoteUpdate None None None) 0) as (H1 & _ & _ & H4); [reflexivity|].
  split; [exact H1 | exact H4].
Defined.

(** X20. The seed route answers [{"created": count}]; for a count of at
    least 1, on a store whose keys were handed out by the counter, the
    total of an unfiltered listing is afterwards larger by [count]. *)
Theorem seed_route_total (lower : string -> string) (repo : InMemoryNoteStore)
    (count : Z) (clock : Z -> datetime) (pg ps : Z) :
  1 <= count -> store_inv repo ->
  fst (seed_notes_endpoint count repo clock) = [("created", count)] /\
  total (list_notes_endpoint lower pg ps None
           (snd (seed_notes_endpoint count repo clock)))
    = total (list_notes_endpoint lower pg ps None repo) + count.
Proof.
  intros Hc [_ Hk]. unfold seed_notes_endpoint, list_notes_endpoint.
  rewrite seed_unfold. cbn [fst snd]. split; [done|].
  rewrite !list_notes_total. unfold filtered.
  rewrite <- (Z2Nat.id count) at 1 by lia. rewrite seed_loop_notes.
  - cbn [_notes]. unfold PyDict.values.
    rewrite map_app, length_app, !length_map, length_range. lia.
  - eapply Forall_impl; [exact Hk|]. cbn. intros; lia.
Qed.

Lemma seed_route_total_witness :
  total (list_notes_endpoint PyStr.ascii_lower 1 10 None
           (snd (seed_notes_endpoint 4 demo_store (fun i => i)))) = 6.
Proof.
  destruct (seed_route_total PyStr.ascii_lower demo_store 4 (fun i => i) 1 10)
    as [_ H]; [lia | exact demo_store_inv |].
  rewrite H. reflexivity.
Defined.
